(** * django_ses: the SES e-mail backend and its client-side throttle

    A shallow embedding of [django_ses/__init__.py] (class [SESBackend]):
    [open], [close], [send_messages] and [get_rate_limit], together with the
    two module-level globals [cached_rate_limits] and [recent_send_times].

    Modelling conventions.
    - A naive [datetime] is its number of microseconds on the proleptic
      calendar (an integer, [Z]); a [timedelta] is the normalised triple
      (days, seconds, microseconds) that Python stores.
    - Python floats ([rate_limit], the throttle factor, [window], [delay])
      are IEEE 754 binary64 values: a NaN, an infinity, or a finite value
      given by the rational it denotes. Every float operation rounds its
      exact result to the nearest binary64 value, ties to even, with gradual
      underflow and overflow to infinity; the sign of a zero, which no
      comparison, product or difference of this code observes, is not kept.
      The division at line 144 is Python 3's true division of two integers,
      correctly rounded, and an integer is compared with a float exactly.
    - The remote provider, the SDK session and the wall clock are oracles of
      a [world]: the n-th call of each returns the n-th scripted outcome.
    - Statements run in a state-and-exception monad: a raised exception
      leaves every mutation made before it in place, as in Python.
    - [email_messages] is a list of references into a store of message
      objects, so that one message listed twice is one object.
    - A message is taken to be well formed, an answer of [send_raw_email]
      to carry the three fields that lines 165-167 read, and a
      [MaxSendRate] to be a number: what [message.message()],
      [message.recipients()] or [dkim.sign] could raise while the
      arguments of the call are built, the [KeyError] of a field missing
      from the answer and a failing [float()] at line 201 are outside the
      model. *)

From Stdlib Require Import ZArith QArith Qround Qabs Qpower List Bool Lia Sorted.
From stdpp Require Import gmap strings list.
Import ListNotations.

Local Open Scope Z_scope.

(** ** Values, exceptions, events *)

(** The Python values that end up in [message.extra_headers]. *)
Inductive pyval :=
| PyNone
| PyInt (z : Z)
| PyStr (s : string).

(** Exceptions. [ClientError] carries the attributes of the exception
    object, which [getattr(err, key, None)] reads; [NoConnection] is the
    [Exception] raised at line 196; [OtherError] is any other exception of
    the SDK (endpoint unreachable, bad credentials, ...). *)
Inductive exn :=
| ClientError (attrs : gmap string pyval)
| NoConnection
| IndexError
| KeyError (k : string)
| OtherError (name : string).

Inductive result (A : Type) :=
| Ok (a : A)
| Raise (e : exn).
Arguments Ok {A} a.
Arguments Raise {A} e.

Definition datetime := Z.
Definition conn := nat.
Definition msg_ref := nat.

(** ** Floats *)

(** A Python float. [Ffin q] is the finite binary64 value that denotes [q];
    what an operation returns is always such a value. *)
Inductive float :=
| Fnan
| Finf (negative : bool)
| Ffin (q : Q).

Definition Qltb (x y : Q) : bool := negb (Qle_bool y x).

(** [floor (log2 x)] for a positive [x]. *)
Definition ilog2 (x : Q) : Z :=
  let e0 := Z.log2 (Qnum x) - Z.log2 (Z.pos (Qden x)) in
  if Qle_bool (2 ^ e0) x then e0 else e0 - 1.

(** The exponent of the last binary digit that binary64 keeps of [x]:
    53 digits, and nothing below [2 ^ -1074]. *)
Definition cexp (x : Q) : Z := Z.max (ilog2 (Qabs x) - 52) (-1074).

(** The nearest integer, the even one of two that are equally near. *)
Definition rne (y : Q) : Z :=
  let f := Qfloor y in
  match (y - inject_Z f ?= 1 # 2)%Q with
  | Lt => f
  | Gt => f + 1
  | Eq => if Z.even f then f else f + 1
  end.

(** Rounding to binary64: the nearest multiple of [2 ^ cexp x], infinite
    from [2 ^ 1024] on. *)
Definition round (x : Q) : float :=
  if Qeq_bool x 0 then Ffin 0
  else
    let c := cexp x in
    let k := rne (x * 2 ^ (- c)) in
    let q := (inject_Z k * 2 ^ c)%Q in
    if Qle_bool (2 ^ 1024) (Qabs q) then Finf (k <? 0) else Ffin (Qred q).

(** [x * y] on floats. *)
Definition fmul (x y : float) : float :=
  match x, y with
  | Fnan, _ | _, Fnan => Fnan
  | Finf sx, Finf sy => Finf (xorb sx sy)
  | Finf s, Ffin q | Ffin q, Finf s =>
      if Qeq_bool q 0 then Fnan else Finf (xorb s (Qltb q 0))
  | Ffin p, Ffin q => round (p * q)
  end.

(** [x - y] on floats. *)
Definition fsub (x y : float) : float :=
  match x, y with
  | Fnan, _ | _, Fnan => Fnan
  | Finf sx, Finf sy => if Bool.eqb sx sy then Fnan else Finf sx
  | Finf s, Ffin _ => Finf s
  | Ffin _, Finf s => Finf (negb s)
  | Ffin p, Ffin q => round (p - q)
  end.

(** [a / b] on integers, [b] not zero. *)
Definition truediv (a b : Z) : float := round (inject_Z a / inject_Z b).

(** [n > x] and [x > n] for an integer [n] and a float [x]; a comparison
    with NaN is false. *)
Definition int_gt_float (n : Z) (x : float) : bool :=
  match x with
  | Fnan => false
  | Finf negative => negative
  | Ffin q => Qltb q (inject_Z n)
  end.

Definition float_gt_int (x : float) (n : Z) : bool :=
  match x with
  | Fnan => false
  | Finf negative => negb negative
  | Ffin q => Qltb (inject_Z n) q
  end.

(** [x <= y] on floats. *)
Definition fleb (x y : float) : bool :=
  match x, y with
  | Fnan, _ | _, Fnan => false
  | Finf true, _ | _, Finf false => true
  | Finf false, _ | _, Finf true => false
  | Ffin p, Ffin q => Qle_bool p q
  end.

(** Truth value of a float: zero is false, NaN and the infinities are
    true. *)
Definition float_truth (x : float) : bool :=
  match x with
  | Ffin q => negb (Qeq_bool q 0)
  | _ => true
  end.

(** What is observable of a run, newest event first. [EvDelay] is a ghost
    event: it marks the assignment [delay = window - total_seconds] of
    line 145. *)
Inductive event :=
| EvNow (t : datetime)
| EvClient
| EvGetSendQuota
| EvSendRawEmail (m : msg_ref)
| EvDelay (d : float)
| EvSleep (d : float).

(** The answer of [send_raw_email], as far as the code reads it. *)
Record response := {
  HTTPStatusCode : Z;
  MessageId : string;
  RequestId : string
}.

(** The answer of [get_send_quota]; an absent [MaxSendRate] is a
    [KeyError] at line 200. *)
Record quota_dict := { MaxSendRate : option float }.

(** ** timedelta *)

Record timedelta := { days : Z; seconds : Z; microseconds : Z }.

(** Normalisation as Python does it: [0 <= seconds < 86400] and
    [0 <= microseconds < 10^6], the sign is carried by [days]. *)
Definition timedelta_of_us (us : Z) : timedelta :=
  {| days := us / 86400000000;
     seconds := (us mod 86400000000) / 1000000;
     microseconds := us mod 1000000 |}.

Definition timedelta_us (d : timedelta) : Z :=
  microseconds d + (seconds d + days d * 24 * 3600) * 10 ^ 6.

(** [a - b] on datetimes. *)
Definition datetime_diff (a b : datetime) : timedelta := timedelta_of_us (a - b).

(** [a - d] for a datetime and a timedelta. *)
Definition datetime_minus (a : datetime) (d : timedelta) : datetime :=
  a - timedelta_us d.

(** Line 127: [window = 2.0]. *)
Definition window : float := Ffin 2.

(** [timedelta(seconds=window)] for that constant. *)
Definition window_delta : timedelta := {| days := 0; seconds := 2; microseconds := 0 |}.

(** Lines 143-144, with true division. *)
Definition total_seconds (delta : timedelta) : float :=
  truediv (microseconds delta + (seconds delta + days delta * 24 * 3600) * 10 ^ 6)
    (10 ^ 6).

(** Line 140, right of the comparison: [rate_limit * window * self._throttle],
    two products from left to right. *)
Definition threshold (rate_limit f : float) : float :=
  fmul (fmul rate_limit window) f.

(** ** Configuration, world and state *)

(** What the code reads from the Django settings and from [self]. *)
Record settings := {
  fail_silently : bool;
  _throttle : option float;      (* AWS_SES_AUTO_THROTTLE; [None] is Python's None *)
  ACCESS_KEY : option string
}.

(** Truth value of [self._throttle]: None and zero are false. *)
Definition throttle_factor (cfg : settings) : option float :=
  match _throttle cfg with
  | Some f => if float_truth f then Some f else None
  | None => None
  end.

Record world := {
  datetime_now : nat -> datetime;
  session_client : nat -> result conn;
  get_send_quota : nat -> result quota_dict;
  send_raw_email : nat -> msg_ref -> result response
}.

Record state := {
  connection : option conn;                          (* self.connection *)
  cached_rate_limits : gmap (option string) float;   (* module global *)
  recent_send_times : list datetime;                 (* module global *)
  extra_headers : gmap msg_ref (gmap string pyval);  (* message.extra_headers *)
  clock_reads : nat;
  client_calls : nat;
  quota_calls : nat;
  send_calls : nat;
  trace : list event
}.

Definition headers_of (s : state) (m : msg_ref) : gmap string pyval :=
  default ∅ (extra_headers s !! m).

(** ** The monad *)

Definition M (A : Type) : Type := state -> result A * state.

Definition ret {A} (a : A) : M A := fun s => (Ok a, s).

Definition raise {A} (e : exn) : M A := fun s => (Raise e, s).

Definition bind {A B} (c : M A) (k : A -> M B) : M B := fun s =>
  match c s with
  | (Ok a, s1) => k a s1
  | (Raise e, s1) => (Raise e, s1)
  end.

Declare Scope py_scope.
Delimit Scope py_scope with py.
Notation "x <- c ;; k" := (bind c (fun x => k))
  (at level 100, c at next level, right associativity) : py_scope.
Notation "c ;; k" := (bind c (fun _ => k))
  (at level 100, right associativity) : py_scope.

(** [try: body / except: handler] with a bare except. *)
Definition try_except {A} (body : M A) (handler : exn -> M A) : M A := fun s =>
  match body s with
  | (Ok a, s1) => (Ok a, s1)
  | (Raise e, s1) => handler e s1
  end.

(** [try: body / except botocore.exceptions.ClientError as err: handler]. *)
Definition try_except_ClientError {A} (body : M A)
    (handler : gmap string pyval -> M A) : M A := fun s =>
  match body s with
  | (Raise (ClientError err), s1) => handler err s1
  | other => other
  end.

(** [try: body / finally: fin]. *)
Definition try_finally {A} (body : M A) (fin : M unit) : M A := fun s =>
  match body s with
  | (r, s1) =>
      match fin s1 with
      | (Ok _, s2) => (r, s2)
      | (Raise e, s2) => (Raise e, s2)
      end
  end.

(** ** Primitive statements *)

Definition get {A} (f : state -> A) : M A := fun s => (Ok (f s), s).

Definition set_connection (c : option conn) : M unit := fun s =>
  (Ok tt, {| connection := c;
             cached_rate_limits := cached_rate_limits s;
             recent_send_times := recent_send_times s;
             extra_headers := extra_headers s;
             clock_reads := clock_reads s; client_calls := client_calls s;
             quota_calls := quota_calls s; send_calls := send_calls s;
             trace := trace s |}).

Definition set_cached_rate_limit (k : option string) (r : float) : M unit := fun s =>
  (Ok tt, {| connection := connection s;
             cached_rate_limits := <[k := r]> (cached_rate_limits s);
             recent_send_times := recent_send_times s;
             extra_headers := extra_headers s;
             clock_reads := clock_reads s; client_calls := client_calls s;
             quota_calls := quota_calls s; send_calls := send_calls s;
             trace := trace s |}).

Definition set_recent_send_times (l : list datetime) : M unit := fun s =>
  (Ok tt, {| connection := connection s;
             cached_rate_limits := cached_rate_limits s;
             recent_send_times := l;
             extra_headers := extra_headers s;
             clock_reads := clock_reads s; client_calls := client_calls s;
             quota_calls := quota_calls s; send_calls := send_calls s;
             trace := trace s |}).

(** [message.extra_headers[key] = v]. *)
Definition set_header (m : msg_ref) (key : string) (v : pyval) : M unit := fun s =>
  (Ok tt, {| connection := connection s;
             cached_rate_limits := cached_rate_limits s;
             recent_send_times := recent_send_times s;
             extra_headers := <[m := <[key := v]> (headers_of s m)]> (extra_headers s);
             clock_reads := clock_reads s; client_calls := client_calls s;
             quota_calls := quota_calls s; send_calls := send_calls s;
             trace := trace s |}).

(** [datetime.now()]. *)
Definition call_now (w : world) : M datetime := fun s =>
  let t := datetime_now w (clock_reads s) in
  (Ok t, {| connection := connection s;
            cached_rate_limits := cached_rate_limits s;
            recent_send_times := recent_send_times s;
            extra_headers := extra_headers s;
            clock_reads := S (clock_reads s); client_calls := client_calls s;
            quota_calls := quota_calls s; send_calls := send_calls s;
            trace := EvNow t :: trace s |}).

(** [self.session.client('ses')]. *)
Definition call_session_client (w : world) : M conn := fun s =>
  (session_client w (client_calls s),
   {| connection := connection s;
      cached_rate_limits := cached_rate_limits s;
      recent_send_times := recent_send_times s;
      extra_headers := extra_headers s;
      clock_reads := clock_reads s; client_calls := S (client_calls s);
      quota_calls := quota_calls s; send_calls := send_calls s;
      trace := EvClient :: trace s |}).

(** [self.connection.get_send_quota()]. *)
Definition call_get_send_quota (w : world) : M quota_dict := fun s =>
  (get_send_quota w (quota_calls s),
   {| connection := connection s;
      cached_rate_limits := cached_rate_limits s;
      recent_send_times := recent_send_times s;
      extra_headers := extra_headers s;
      clock_reads := clock_reads s; client_calls := client_calls s;
      quota_calls := S (quota_calls s); send_calls := send_calls s;
      trace := EvGetSendQuota :: trace s |}).

(** [self.connection.send_raw_email(...)] for one message. *)
Definition call_send_raw_email (w : world) (m : msg_ref) : M response := fun s =>
  (send_raw_email w (send_calls s) m,
   {| connection := connection s;
      cached_rate_limits := cached_rate_limits s;
      recent_send_times := recent_send_times s;
      extra_headers := extra_headers s;
      clock_reads := clock_reads s; client_calls := client_calls s;
      quota_calls := quota_calls s; send_calls := S (send_calls s);
      trace := EvSendRawEmail m :: trace s |}).

Definition log (e : event) : M unit := fun s =>
  (Ok tt, {| connection := connection s;
             cached_rate_limits := cached_rate_limits s;
             recent_send_times := recent_send_times s;
             extra_headers := extra_headers s;
             clock_reads := clock_reads s; client_calls := client_calls s;
             quota_calls := quota_calls s; send_calls := send_calls s;
             trace := e :: trace s |}).

(** [sleep(delay)]. *)
Definition sleep (d : float) : M unit := log (EvSleep d).

(** Truth value of what [open] returns: [False] or [None]. *)
Definition truthy (v : option bool) : bool :=
  match v with
  | Some b => b
  | None => false
  end.

(** [getattr(err, key, None)]. *)
Definition getattr (err : gmap string pyval) (key : string) : pyval :=
  default PyNone (err !! key).

(** ** SESBackend *)

Section SESBackend.

Variable cfg : settings.
Variable w : world.

Local Open Scope py_scope.

(** Lines 69-80. The value returned is [False] when a connection exists
    and [None] otherwise: the function ends without a return statement. *)
Definition open : M (option bool) :=
  c <- get connection ;;
  match c with
  | Some _ => ret (Some false)
  | None =>
      try_except
        (c' <- call_session_client w ;;
         set_connection (Some c') ;;
         ret None)
        (fun e => if fail_silently cfg then ret None else raise e)
  end.

(** Lines 82-89. *)
Definition close : M unit := set_connection None.

(** Lines 190-206. *)
Definition get_rate_limit : M float :=
  cache <- get cached_rate_limits ;;
  match cache !! ACCESS_KEY cfg with
  | Some r => ret r
  | None =>
      new_conn_created <- open ;;
      c <- get connection ;;
      match c with
      | None => raise NoConnection
      | Some _ =>
          try_finally
            (quota <- call_get_send_quota w ;;
             match MaxSendRate quota with
             | None => raise (KeyError "MaxSendRate")
             | Some max_per_second =>
                 set_cached_rate_limit (ACCESS_KEY cfg) max_per_second ;;
                 ret max_per_second
             end)
            (if truthy new_conn_created then close else ret tt)
      end
  end.

(** Lines 129-132: the loop that rebuilds the list. *)
Definition prune (window_start : datetime) (times : list datetime) : list datetime :=
  fold_left
    (fun new_send_times time =>
       if window_start <? time then new_send_times ++ [time] else new_send_times)
    times [].

(** Lines 140-147, on the pruned list. *)
Definition maybe_delay (now : datetime) (rate_limit f : float)
    (new_send_times : list datetime) : M unit :=
  if int_gt_float (Z.of_nat (length new_send_times)) (threshold rate_limit f) then
    match new_send_times with
    | [] => raise IndexError
    | oldest :: _ =>
        let delta := datetime_diff now oldest in
        let delay := fsub window (total_seconds delta) in
        log (EvDelay delay) ;;
        if float_gt_int delay 0 then sleep delay else ret tt
    end
  else ret tt.

(** Lines 111-149: the throttle, run when [self._throttle] is true. *)
Definition throttle (f : float) : M unit :=
  now <- call_now w ;;
  rate_limit <- get_rate_limit ;;
  times <- get recent_send_times ;;
  let window_start := datetime_minus now window_delta in
  let new_send_times := prune window_start times in
  set_recent_send_times new_send_times ;;
  maybe_delay now rate_limit f new_send_times ;;
  times' <- get recent_send_times ;;
  set_recent_send_times (times' ++ [now]).

(** Lines 178-181. *)
Definition error_keys : list string :=
  ["status"; "reason"; "body"; "request_id"; "error_code"; "error_message"]%string.

Fixpoint record_error (m : msg_ref) (err : gmap string pyval)
    (keys : list string) : M unit :=
  match keys with
  | [] => ret tt
  | key :: keys' => set_header m key (getattr err key) ;; record_error m err keys'
  end.

(** Lines 152-183: one message; returns the new value of [num_sent]. *)
Definition send_one (message : msg_ref) (num_sent : nat) : M nat :=
  try_except_ClientError
    (resp <- call_send_raw_email w message ;;
     set_header message "status" (PyInt (HTTPStatusCode resp)) ;;
     set_header message "message_id" (PyStr (MessageId resp)) ;;
     set_header message "request_id" (PyStr (RequestId resp)) ;;
     ret (S num_sent))
    (fun err =>
       record_error message err error_keys ;;
       if fail_silently cfg then ret num_sent else raise (ClientError err)).

(** Lines 110-150: the gate in front of every send. *)
Definition throttle_gate : M unit :=
  match throttle_factor cfg with
  | Some f => throttle f
  | None => ret tt
  end.

(** Lines 104-183: the loop over the messages. *)
Fixpoint send_loop (email_messages : list msg_ref) (num_sent : nat) : M nat :=
  match email_messages with
  | [] => ret num_sent
  | message :: rest =>
      throttle_gate ;;
      num_sent' <- send_one message num_sent ;;
      send_loop rest num_sent'
  end.

(** Lines 91-188. [None] is the bare [return]. *)
Definition send_messages (email_messages : list msg_ref) : M (option nat) :=
  match email_messages with
  | [] => ret None
  | _ :: _ =>
      new_conn_created <- open ;;
      c <- get connection ;;
      match c with
      | None => ret None
      | Some _ =>
          num_sent <- send_loop email_messages 0 ;;
          (if truthy new_conn_created then close else ret tt) ;;
          ret (Some num_sent)
      end
  end.

End SESBackend.

(** ** Specification-side definitions *)

(** The entries of [times] strictly after [window_start], in their order:
    what the specification says pruning retains. *)
Definition retain_after (window_start : datetime) (times : list datetime) : list datetime :=
  List.filter (fun time => window_start <? time) times.

(** The state a statement leaves behind. *)
Definition exec {A} (c : M A) (s : state) : state := snd (c s).

(** The state after a send that succeeded with [resp]: lines 153-168. *)
Definition sent_state (w : world) (message : msg_ref) (resp : response)
    (s : state) : state :=
  exec (set_header message "request_id" (PyStr (RequestId resp)))
    (exec (set_header message "message_id" (PyStr (MessageId resp)))
       (exec (set_header message "status" (PyInt (HTTPStatusCode resp)))
          (exec (call_send_raw_email w message) s))).

(** The state after a send that raised the client error [err]:
    lines 153 and 178-181. *)
Definition failed_state (w : world) (message : msg_ref)
    (err : gmap string pyval) (s : state) : state :=
  exec (record_error message err error_keys)
    (exec (call_send_raw_email w message) s).

Definition is_client_error (e : exn) : bool :=
  match e with
  | ClientError _ => true
  | _ => false
  end.

(** How many of [msgs] the provider accepts, when the first of them is
    remote send number [base]. *)
Fixpoint count_sent (w : world) (base : nat) (msgs : list msg_ref) : nat :=
  match msgs with
  | [] => 0
  | m :: rest =>
      (match send_raw_email w base m with
       | Ok _ => 1
       | Raise _ => 0
       end + count_sent w (S base) rest)%nat
  end.

(** No send of the batch raises an exception that reaches the caller:
    each one succeeds, or raises a client error under fail-silently. *)
Fixpoint batch_survives (cfg : settings) (w : world) (base : nat)
    (msgs : list msg_ref) : bool :=
  match msgs with
  | [] => true
  | m :: rest =>
      match send_raw_email w base m with
      | Ok _ => true
      | Raise e => is_client_error e && fail_silently cfg
      end && batch_survives cfg w (S base) rest
  end.

(** The throttle cannot raise: it is off, or the rate limit is cached and
    the threshold is not negative (zero does not exceed it). *)
Definition gate_ready (cfg : settings) (s : state) : Prop :=
  match throttle_factor cfg with
  | None => True
  | Some f =>
      exists rate_limit : float,
        cached_rate_limits s !! ACCESS_KEY cfg = Some rate_limit
        /\ int_gt_float 0 (threshold rate_limit f) = false
  end.

(** The events that only the throttle produces. *)
Definition is_throttle_event (e : event) : bool :=
  match e with
  | EvNow _ | EvGetSendQuota | EvDelay _ | EvSleep _ => true
  | EvClient | EvSendRawEmail _ => false
  end.

(** Successive readings of the clock never go back. *)
Definition clock_monotone (w : world) : Prop :=
  forall i j : nat, (i <= j)%nat -> datetime_now w i <= datetime_now w j.

(** The shared sequence is in time order and holds nothing later than the
    next reading of the clock. *)
Definition times_ok (w : world) (s : state) : Prop :=
  StronglySorted Z.le (recent_send_times s)
  /\ Forall (fun t => t <= datetime_now w (clock_reads s)) (recent_send_times s).

(** The delays computed during a run, each with the number of the send it
    gated: [(k, d)] says that [d] was computed while the k-th message was
    waiting to be sent. The events are read oldest first. *)
Fixpoint delay_log (sent : nat) (chronological : list event) : list (nat * float) :=
  match chronological with
  | [] => []
  | EvSendRawEmail _ :: evs => delay_log (S sent) evs
  | EvDelay d :: evs => (S sent, d) :: delay_log sent evs
  | _ :: evs => delay_log sent evs
  end.

Definition delays_of (s : state) : list (nat * float) := delay_log 0 (rev (trace s)).

(** ** Footprints of a run *)

(** The messages handed to the provider, read off a trace (newest first). *)
Fixpoint sends_of (evs : list event) : list msg_ref :=
  match evs with
  | [] => []
  | EvSendRawEmail m :: evs' => m :: sends_of evs'
  | _ :: evs' => sends_of evs'
  end.

(** Every entry of the rate-limit cache of [s] is still there, with its
    value, in [s']. *)
Definition cache_kept (s s' : state) : Prop :=
  forall (k : option string) (v : float),
    cached_rate_limits s !! k = Some v -> cached_rate_limits s' !! k = Some v.

(** What a run on a backend that has its connection may do to the cache
    and to the counts of remote calls: keep every cache entry, create no
    client, and ask for the quota at most once, not at all when the rate is
    cached. *)
Definition calls_ok (cfg : settings) (s s' : state) : Prop :=
  cache_kept s s'
  /\ client_calls s' = client_calls s
  /\ (quota_calls s' <= S (quota_calls s))%nat
  /\ (is_Some (cached_rate_limits s !! ACCESS_KEY cfg) -> quota_calls s' = quota_calls s).

(** The origins of an exception with which the embedded [send_messages]
    ends in state [s']: the SDK ([session.client] without fail-silently,
    [get_send_quota], the send of a message, a client error only without
    fail-silently), the subscript [quota_dict['MaxSendRate']] of line 200,
    or the subscript [new_send_times[0]] of line 142, which needs a
    negative threshold. *)
Definition raise_origin (cfg : settings) (w : world) (s' : state) (e : exn) : Prop :=
  (exists n : nat, session_client w n = Raise e /\ fail_silently cfg = false)
  \/ (exists n : nat, get_send_quota w n = Raise e)
  \/ e = KeyError "MaxSendRate"
  \/ (exists (n : nat) (m : msg_ref),
        send_raw_email w n m = Raise e
        /\ (is_client_error e = true -> fail_silently cfg = false))
  \/ (e = IndexError
      /\ exists f rl : float,
           throttle_factor cfg = Some f
           /\ cached_rate_limits s' !! ACCESS_KEY cfg = Some rl
           /\ int_gt_float 0 (threshold rl f) = true).

(** Lines 128-133 and 149 for one message: prune at [now], append [now]. *)
Definition stamp (times : list datetime) (now : datetime) : list datetime :=
  prune (datetime_minus now window_delta) times ++ [now].

(** The [n] readings of the clock from reading number [first] on. *)
Definition readings (w : world) (first n : nat) : list datetime :=
  map (datetime_now w) (seq first n).

(** ** Scenarios *)

(** The module as imported and a backend as constructed: nothing cached,
    nothing sent, no connection. *)
Definition initial_state : state :=
  {| connection := None;
     cached_rate_limits := ∅;
     recent_send_times := [];
     extra_headers := ∅;
     clock_reads := 0; client_calls := 0; quota_calls := 0; send_calls := 0;
     trace := [] |}.

Definition access_key : option string := Some "AKIAEXAMPLE"%string.

(** The same with a rate limit of 10 already cached. *)
Definition warm_state : state :=
  {| connection := None;
     cached_rate_limits := {[ access_key := Ffin 10 ]};
     recent_send_times := [];
     extra_headers := ∅;
     clock_reads := 0; client_calls := 0; quota_calls := 0; send_calls := 0;
     trace := [] |}.

Definition accepted : response :=
  {| HTTPStatusCode := 200; MessageId := "0100018a"; RequestId := "5d8c1f2e" |}.

Definition rejected : gmap string pyval :=
  {[ "error_code"%string := PyStr "MessageRejected";
     "error_message"%string := PyStr "Email address is not verified." ]}.

(** A provider that accepts everything and reports a rate of 10, with a
    clock that stands still at [t0]. *)
Definition steady_world (t0 : datetime) : world :=
  {| datetime_now := fun _ => t0;
     session_client := fun _ => Ok 7%nat;
     get_send_quota := fun _ => Ok {| MaxSendRate := Some (Ffin 10) |};
     send_raw_email := fun _ _ => Ok accepted |}.

(** The same provider with a clock that advances one second per reading,
    rejecting the first send of all with a client error. *)
Definition ticking_world : world :=
  {| datetime_now := fun n => Z.of_nat n * 1000000;
     session_client := fun _ => Ok 7%nat;
     get_send_quota := fun _ => Ok {| MaxSendRate := Some (Ffin 10) |};
     send_raw_email := fun n _ =>
       match n with
       | O => Raise (ClientError rejected)
       | S _ => Ok accepted
       end |}.

(** A world where nothing can be reached, and whose clock steps back from
    10 s to 5 s between the first two readings. *)
Definition broken_world : world :=
  {| datetime_now := fun n =>
       match n with
       | O => 10000000
       | S _ => Z.of_nat n * 1000000 + 4000000
       end;
     session_client := fun _ => Raise (OtherError "EndpointConnectionError");
     get_send_quota := fun _ => Raise (OtherError "EndpointConnectionError");
     send_raw_email := fun _ _ => Raise (OtherError "EndpointConnectionError") |}.

(** That stepping clock with a provider that works. *)
Definition stepping_world : world :=
  {| datetime_now := datetime_now broken_world;
     session_client := fun _ => Ok 7%nat;
     get_send_quota := fun _ => Ok {| MaxSendRate := Some (Ffin 10) |};
     send_raw_email := fun _ _ => Ok accepted |}.

Definition cfg_of (silent : bool) (factor : option float) : settings :=
  {| fail_silently := silent; _throttle := factor; ACCESS_KEY := access_key |}.

(** A backend whose caller supplied the connection. *)
Definition connected_state : state :=
  {| connection := Some 3%nat;
     cached_rate_limits := ∅;
     recent_send_times := [];
     extra_headers := ∅;
     clock_reads := 0; client_calls := 0; quota_calls := 0; send_calls := 0;
     trace := [] |}.

(** Eleven sends on record, all at instant 0, with the rate cached. *)
Definition crowded_state : state :=
  {| connection := Some 3%nat;
     cached_rate_limits := {[ access_key := Ffin 10 ]};
     recent_send_times := repeat 0 11;
     extra_headers := ∅;
     clock_reads := 0; client_calls := 0; quota_calls := 0; send_calls := 0;
     trace := [] |}.

(** Two sends on record, at 0 s and 1 s, the clock read twice. *)
Definition busy_state : state :=
  {| connection := Some 3%nat;
     cached_rate_limits := {[ access_key := Ffin 10 ]};
     recent_send_times := [0; 1000000];
     extra_headers := ∅;
     clock_reads := 2; client_calls := 0; quota_calls := 0; send_calls := 0;
     trace := [] |}.

(** [n] sends on record, all at instant 0, with the rate [rate] cached. *)
Definition tied_state (rate : float) (n : nat) : state :=
  {| connection := Some 3%nat;
     cached_rate_limits := {[ access_key := rate ]};
     recent_send_times := repeat 0 n;
     extra_headers := ∅;
     clock_reads := 0; client_calls := 0; quota_calls := 0; send_calls := 0;
     trace := [] |}.

(** The floats that Python reads from [0.3] and [0.29]:
    [0x1.3333333333333p-2] and [0x1.28f5c28f5c28fp-2]. *)
Definition float_0_3 : float := Ffin (5404319552844595 # 18014398509481984).
Definition float_0_29 : float := Ffin (5224175567749775 # 18014398509481984).

(** The default configuration: throttle factor 0.5. *)
Definition throttled_cfg : settings := cfg_of false (Some (Ffin (1 # 2))).

(** The delay computed when the oldest retained entry is [now] itself. *)
Definition steady_delay (t0 : datetime) : float :=
  fsub window (total_seconds (datetime_diff t0 t0)).

(** The events of sending [msgs] one after the other at the instant [t0]
    with a threshold of 10, when [k] timestamps are already retained. *)
Fixpoint steady_events (t0 : datetime) (k : nat) (msgs : list msg_ref) : list event :=
  match msgs with
  | [] => []
  | m :: rest =>
      EvNow t0
        :: (if (10 <? k)%nat
            then [EvDelay (steady_delay t0); EvSleep (steady_delay t0)]
            else [])
        ++ EvSendRawEmail m :: steady_events t0 (S k) rest
  end.

(** A provider that refuses the quota query with a client error. *)
Definition quota_denied_world : world :=
  {| datetime_now := fun _ => 0;
     session_client := fun _ => Ok 7%nat;
     get_send_quota := fun _ => Raise (ClientError rejected);
     send_raw_email := fun _ _ => Ok accepted |}.

(** * Properties *)

(** ** Floats and durations *)

Lemma Qltb_lt (x y : Q) : Qltb x y = true <-> (x < y)%Q.
Proof.
  unfold Qltb. rewrite negb_true_iff. split.
  - intros H. apply Qnot_le_lt. intros Hle.
    apply Qle_bool_iff in Hle. congruence.
  - intros H. destruct (Qle_bool y x) eqn:E; [|reflexivity].
    apply Qle_bool_iff in E. exfalso. exact (Qlt_not_le _ _ H E).
Qed.

Lemma Qltb_ge (x y : Q) : Qltb x y = false <-> (y <= x)%Q.
Proof.
  unfold Qltb. rewrite negb_false_iff. apply Qle_bool_iff.
Qed.

Lemma two_pow_pos (e : Z) : (0 < 2 ^ e)%Q.
Proof. now apply Qpower_0_lt. Qed.

Lemma two_pow_Z (e : Z) : 0 <= e -> (2 ^ e == inject_Z (2 ^ e))%Q.
Proof. intros H. now rewrite (Zpower_Qpower 2 e H). Qed.

Lemma two_pow_le (a b : Z) : a <= b -> (2 ^ a <= 2 ^ b)%Q.
Proof. intros H. now apply Qpower_le_compat_l. Qed.

Lemma two_pow_lt_inv (a b : Z) : (2 ^ a < 2 ^ b)%Q -> a < b.
Proof. intros H. now apply (Qpower_lt_compat_l_inv 2). Qed.

Lemma two_pow_plus (a b : Z) : (2 ^ (a + b) == 2 ^ a * 2 ^ b)%Q.
Proof. now apply Qpower_plus. Qed.

Lemma ilog2_spec (x : Q) :
  (0 < x)%Q -> (2 ^ ilog2 x <= x)%Q /\ (x < 2 ^ (ilog2 x + 1))%Q.
Proof.
  intros Hx. destruct x as [n d]. unfold ilog2. cbn [Qnum Qden].
  assert (Hn : 0 < n) by (unfold Qlt in Hx; cbn in Hx; lia).
  set (a := Z.log2 n). set (b := Z.log2 (Z.pos d)).
  destruct (Z.log2_spec n Hn) as (Ha1 & Ha2). fold a in Ha1, Ha2.
  destruct (Z.log2_spec (Z.pos d) ltac:(lia)) as (Hb1 & Hb2). fold b in Hb1, Hb2.
  assert (Ha0 : 0 <= a) by apply Z.log2_nonneg.
  assert (Hb0 : 0 <= b) by apply Z.log2_nonneg.
  assert (Hq : (n # d == inject_Z n / inject_Z (Z.pos d))%Q) by apply Qmake_Qdiv.
  assert (Hd : (0 < inject_Z (Z.pos d))%Q) by (unfold Qlt; cbn; lia).
  assert (Hup : (n # d < 2 ^ (a - b + 1))%Q).
  { replace (a - b + 1) with (Z.succ a + - b) by lia.
    rewrite two_pow_plus, Qpower_opp, (two_pow_Z (Z.succ a)), (two_pow_Z b) by lia.
    rewrite Hq. unfold Qdiv.
    apply Qlt_le_trans with (inject_Z (2 ^ Z.succ a) * / inject_Z (Z.pos d))%Q.
    - apply Qmult_lt_compat_r; [now apply Qinv_lt_0_compat|].
      rewrite <- Zlt_Qlt. exact Ha2.
    - apply Qmult_le_l; [rewrite <- (two_pow_Z (Z.succ a)) by lia; apply two_pow_pos|].
      apply Qle_shift_inv_l; [rewrite <- two_pow_Z by lia; apply two_pow_pos|].
      rewrite Qmult_comm. apply Qle_shift_div_r; [exact Hd|].
      rewrite Qmult_1_l, <- Zle_Qle. exact Hb1. }
  destruct (Qle_bool (2 ^ (a - b)) (n # d)) eqn:E.
  - apply Qle_bool_iff in E. split; [exact E | exact Hup].
  - split.
    + replace (a - b - 1) with (a + - Z.succ b) by lia.
      rewrite two_pow_plus, Qpower_opp, (two_pow_Z a), (two_pow_Z (Z.succ b)) by lia.
      rewrite Hq. unfold Qdiv.
      apply Qle_trans with (inject_Z n * / inject_Z (2 ^ Z.succ b))%Q.
      * apply Qmult_le_compat_r; [now rewrite <- Zle_Qle|].
        apply Qlt_le_weak, Qinv_lt_0_compat.
        rewrite <- two_pow_Z by lia. apply two_pow_pos.
      * apply Qmult_le_l; [change 0%Q with (inject_Z 0); rewrite <- Zlt_Qlt; lia|].
        apply Qle_shift_inv_l; [exact Hd|].
        rewrite Qmult_comm. apply Qle_shift_div_r.
        { rewrite <- two_pow_Z by lia. apply two_pow_pos. }
        rewrite Qmult_1_l, <- Zle_Qle. lia.
    + replace (a - b - 1 + 1) with (a - b) by lia.
      apply Qnot_le_lt. intros H. apply Qle_bool_iff in H. congruence.
Qed.

Lemma rne_ge (y : Q) (N : Z) : (inject_Z N <= y)%Q -> N <= rne y.
Proof.
  intros H. apply Qfloor_resp_le in H. rewrite Qfloor_Z in H.
  unfold rne. destruct (_ ?= _)%Q; [destruct (Z.even _)| |]; lia.
Qed.

Lemma rne_le (y : Q) (N : Z) : (y <= inject_Z N)%Q -> rne y <= N.
Proof.
  intros H. pose proof (Qfloor_resp_le _ _ H) as HfN. rewrite Qfloor_Z in HfN.
  assert (Hstep : (1 # 2 <= y - inject_Z (Qfloor y))%Q -> Qfloor y + 1 <= N).
  { intros Hr. assert (Hlt : (inject_Z (Qfloor y) < inject_Z N)%Q).
    { apply Qlt_le_trans with y; [|exact H].
      apply Qlt_minus_iff. apply Qlt_le_trans with (1 # 2)%Q; [reflexivity|].
      exact Hr. }
    rewrite <- Zlt_Qlt in Hlt. lia. }
  unfold rne. destruct (_ ?= _)%Q eqn:E.
  - apply Qeq_alt in E. destruct (Z.even _); [lia|].
    apply Hstep. rewrite E. apply Qle_refl.
  - exact HfN.
  - apply Qgt_alt in E. apply Hstep. now apply Qlt_le_weak.
Qed.

Lemma round_nonzero (x : Q) :
  ~ (x == 0)%Q ->
  round x
  = (if Qle_bool (2 ^ 1024) (Qabs (inject_Z (rne (x * 2 ^ (- cexp x))) * 2 ^ cexp x))
     then Finf (rne (x * 2 ^ (- cexp x)) <? 0)
     else Ffin (Qred (inject_Z (rne (x * 2 ^ (- cexp x))) * 2 ^ cexp x)))%Q.
Proof.
  intros H. unfold round. destruct (Qeq_bool x 0) eqn:E; [|reflexivity].
  now apply Qeq_bool_iff in E.
Qed.

Lemma round_zero (x : Q) : (x == 0)%Q -> round x = Ffin 0.
Proof. intros H. unfold round. apply Qeq_bool_iff in H. now rewrite H. Qed.

Lemma Qabs_pos_eq (x : Q) : (0 < x)%Q -> Qabs x = x.
Proof.
  destruct x as [[|n|n] d]; intros H; try reflexivity; discriminate H.
Qed.

Lemma cexp_le (x : Q) (j : Z) :
  (0 < x)%Q -> (x < 2 ^ j)%Q -> cexp x <= Z.max (j - 53) (-1074).
Proof.
  intros Hx Hlt. unfold cexp. rewrite (Qabs_pos_eq x Hx).
  destruct (ilog2_spec x Hx) as (Hlo & _).
  assert (ilog2 x < j).
  { apply two_pow_lt_inv. now apply Qle_lt_trans with x. }
  lia.
Qed.

(** The scaled value: [x * 2 ^ (- c)] against [2 ^ (g - c)]-multiples. *)
Lemma scale_le (x : Q) (M g c : Z) :
  c <= g -> (x <= inject_Z M * 2 ^ g)%Q ->
  (x * 2 ^ (- c) <= inject_Z (M * 2 ^ (g - c)))%Q.
Proof.
  intros Hc Hx. rewrite inject_Z_mult, <- two_pow_Z by lia.
  replace (g - c) with (g + - c) by lia. rewrite two_pow_plus, Qmult_assoc.
  apply Qmult_le_compat_r; [exact Hx|]. apply Qlt_le_weak, two_pow_pos.
Qed.

Lemma unscale_le (k M g c : Z) :
  c <= g -> k <= M * 2 ^ (g - c) ->
  (inject_Z k * 2 ^ c <= inject_Z M * 2 ^ g)%Q.
Proof.
  intros Hc Hk. apply Qle_trans with (inject_Z (M * 2 ^ (g - c)) * 2 ^ c)%Q.
  - apply Qmult_le_compat_r; [now rewrite <- Zle_Qle|].
    apply Qlt_le_weak, two_pow_pos.
  - rewrite inject_Z_mult, <- two_pow_Z by lia.
    rewrite <- Qmult_assoc, <- two_pow_plus.
    replace (g - c + c) with g by lia. apply Qle_refl.
Qed.

(** Rounding does not cross a bound that is representable at the exponent
    of the value rounded. *)
Lemma round_le (x : Q) (M g j : Z) :
  (0 < x)%Q -> (x <= inject_Z M * 2 ^ g)%Q -> (inject_Z M * 2 ^ g < 2 ^ j)%Q ->
  Z.max (j - 53) (-1074) <= g -> j <= 1024 ->
  exists q : Q, round x = Ffin q /\ (0 <= q)%Q /\ (q <= inject_Z M * 2 ^ g)%Q.
Proof.
  intros Hx Hle Hlt Hg Hj.
  assert (Hc : cexp x <= g).
  { pose proof (cexp_le x j Hx (Qle_lt_trans _ _ _ Hle Hlt)). lia. }
  rewrite round_nonzero by (intros E; rewrite E in Hx; discriminate).
  set (c := cexp x) in *. set (k := rne (x * 2 ^ (- c))).
  assert (Hk : k <= M * 2 ^ (g - c)) by (apply rne_le; now apply scale_le).
  assert (Hk0 : 0 <= k).
  { apply rne_ge. apply Qmult_le_0_compat; apply Qlt_le_weak; [exact Hx|apply two_pow_pos]. }
  assert (Hq0 : (0 <= inject_Z k * 2 ^ c)%Q).
  { apply Qmult_le_0_compat; [now change 0%Q with (inject_Z 0); rewrite <- Zle_Qle|].
    apply Qlt_le_weak, two_pow_pos. }
  pose proof (unscale_le k M g c Hc Hk) as Hq.
  destruct (Qle_bool _ _) eqn:E.
  - exfalso. apply Qle_bool_iff in E. rewrite Qabs_pos in E by exact Hq0.
    assert (H1 : (2 ^ j <= 2 ^ 1024)%Q) by now apply two_pow_le.
    apply (Qlt_irrefl (2 ^ 1024)).
    eapply Qle_lt_trans; [exact E|]. eapply Qle_lt_trans; [exact Hq|].
    eapply Qlt_le_trans; [exact Hlt | exact H1].
  - eexists. split; [reflexivity|]. rewrite Qred_correct. auto.
Qed.

Lemma round_nonpos (x : Q) :
  (x <= 0)%Q ->
  round x = Finf true \/ exists q : Q, round x = Ffin q /\ (q <= 0)%Q.
Proof.
  intros Hx. destruct (Qeq_bool x 0) eqn:E0.
  { apply Qeq_bool_iff in E0. rewrite (round_zero x E0). right. exists 0%Q.
    split; [reflexivity|apply Qle_refl]. }
  apply Qeq_bool_neq in E0. rewrite round_nonzero by exact E0.
  set (c := cexp x). set (k := rne (x * 2 ^ (- c))).
  assert (Hk : k <= 0).
  { apply rne_le. change (inject_Z 0) with 0%Q.
    rewrite <- (Qmult_0_l (2 ^ (- c))).
    apply Qmult_le_compat_r; [exact Hx|]. apply Qlt_le_weak, two_pow_pos. }
  assert (Hq : (inject_Z k * 2 ^ c <= 0)%Q).
  { rewrite <- (Qmult_0_l (2 ^ c)).
    apply Qmult_le_compat_r; [now change 0%Q with (inject_Z 0); rewrite <- Zle_Qle|].
    apply Qlt_le_weak, two_pow_pos. }
  destruct (Qle_bool _ _) eqn:E.
  - left. f_equal. apply Z.ltb_lt. destruct (Z.eq_dec k 0) as [Hz|Hz]; [|lia].
    exfalso. apply Qle_bool_iff in E. rewrite Hz in E.
    change (inject_Z 0) with 0%Q in E. rewrite Qmult_0_l in E.
    change (Qabs 0) with 0%Q in E.
    apply (Qlt_irrefl 0). eapply Qlt_le_trans; [apply (two_pow_pos 1024) | exact E].
  - right. eexists. split; [reflexivity|]. now rewrite Qred_correct.
Qed.

Lemma round_nonneg (x : Q) :
  (0 <= x)%Q ->
  round x = Finf false \/ exists q : Q, round x = Ffin q /\ (0 <= q)%Q.
Proof.
  intros Hx. destruct (Qeq_bool x 0) eqn:E0.
  { apply Qeq_bool_iff in E0. rewrite (round_zero x E0). right. exists 0%Q.
    split; [reflexivity|apply Qle_refl]. }
  apply Qeq_bool_neq in E0. rewrite round_nonzero by exact E0.
  set (c := cexp x). set (k := rne (x * 2 ^ (- c))).
  assert (Hk : 0 <= k).
  { apply rne_ge. apply Qmult_le_0_compat; [exact Hx|]. apply Qlt_le_weak, two_pow_pos. }
  destruct (Qle_bool _ _) eqn:E.
  - left. f_equal. apply Z.ltb_ge. exact Hk.
  - right. eexists. split; [reflexivity|]. rewrite Qred_correct.
    apply Qmult_le_0_compat; [now change 0%Q with (inject_Z 0); rewrite <- Zle_Qle|].
    apply Qlt_le_weak, two_pow_pos.
Qed.

(** A value of at least [2 ^ -20] does not round to zero. *)
Lemma round_pos (y : Q) :
  (2 ^ (-20) <= y)%Q ->
  round y = Finf false \/ exists q : Q, round y = Ffin q /\ (0 < q)%Q.
Proof.
  intros Hy.
  assert (Hpos : (0 < y)%Q) by (eapply Qlt_le_trans; [apply (two_pow_pos (-20)) | exact Hy]).
  rewrite round_nonzero by (intros E; rewrite E in Hpos; discriminate).
  destruct (ilog2_spec y Hpos) as (Hlo & Hhi).
  assert (Hl : -20 <= ilog2 y).
  { assert (-20 < ilog2 y + 1); [|lia].
    apply two_pow_lt_inv. now apply Qle_lt_trans with y. }
  assert (Hc : cexp y <= ilog2 y).
  { unfold cexp. rewrite (Qabs_pos_eq y Hpos). lia. }
  set (c := cexp y) in *. set (k := rne (y * 2 ^ (- c))).
  assert (Hk : 1 <= k).
  { apply rne_ge. change (inject_Z 1) with (2 ^ 0)%Q.
    apply Qle_trans with (2 ^ ilog2 y * 2 ^ (- c))%Q.
    - rewrite <- two_pow_plus. apply two_pow_le. lia.
    - apply Qmult_le_compat_r; [exact Hlo|]. apply Qlt_le_weak, two_pow_pos. }
  destruct (Qle_bool _ _) eqn:E.
  - left. f_equal. apply Z.ltb_ge. lia.
  - right. eexists. split; [reflexivity|]. rewrite Qred_correct.
    apply Qmult_lt_0_compat; [|apply two_pow_pos].
    change 0%Q with (inject_Z 0). rewrite <- Zlt_Qlt. lia.
Qed.

(** Python's normalised triple recomposes to the microseconds it came from. *)
Lemma timedelta_us_of_us (us : Z) : timedelta_us (timedelta_of_us us) = us.
Proof.
  unfold timedelta_us, timedelta_of_us. cbn [days seconds microseconds].
  change (10 ^ 6) with 1000000.
  pose proof (Z.div_mod us 86400000000 ltac:(lia)) as Hd.
  pose proof (Z.div_mod (us mod 86400000000) 1000000 ltac:(lia)) as Hs.
  assert (Hm : (us mod 86400000000) mod 1000000 = us mod 1000000).
  { apply Z.mod_mod_divide. exists 86400. reflexivity. }
  lia.
Qed.

Lemma window_delta_us : timedelta_us window_delta = 2000000.
Proof. reflexivity. Qed.

Lemma datetime_minus_window (now : datetime) :
  datetime_minus now window_delta = now - 2000000.
Proof. unfold datetime_minus. now rewrite window_delta_us. Qed.

Lemma total_seconds_diff (a b : datetime) :
  total_seconds (datetime_diff a b) = truediv (a - b) (10 ^ 6).
Proof.
  unfold total_seconds, datetime_diff.
  change (microseconds ?d + (seconds ?d + days ?d * 24 * 3600) * 10 ^ 6)
    with (timedelta_us d).
  now rewrite timedelta_us_of_us.
Qed.

(** ** Pruning *)

Lemma prune_acc (window_start : datetime) (times acc : list datetime) :
  fold_left
    (fun new_send_times time =>
       if window_start <? time then new_send_times ++ [time] else new_send_times)
    times acc
  = acc ++ retain_after window_start times.
Proof.
  revert acc. induction times as [|t times IH]; intros acc; cbn.
  - now rewrite app_nil_r.
  - rewrite IH. destruct (window_start <? t); [|reflexivity].
    now rewrite <- app_assoc.
Qed.

Lemma prune_retain (window_start : datetime) (times : list datetime) :
  prune window_start times = retain_after window_start times.
Proof. unfold prune. now rewrite prune_acc. Qed.

Lemma retain_after_all (window_start : datetime) (times : list datetime) :
  Forall (fun time => window_start < time) (retain_after window_start times).
Proof.
  unfold retain_after. induction times as [|t times IH]; cbn; [constructor|].
  destruct (window_start <? t) eqn:E; [|exact IH].
  constructor; [lia | exact IH].
Qed.

Lemma retain_after_id (window_start : datetime) (times : list datetime) :
  Forall (fun time => window_start < time) times ->
  retain_after window_start times = times.
Proof.
  unfold retain_after. induction 1 as [|t times Ht _ IH]; cbn; [reflexivity|].
  replace (window_start <? t) with true by lia. now rewrite IH.
Qed.

(** C3. Pruning at [now] retains exactly the entries strictly greater than
    [now - 2.0 s], in their original order, and pruning twice with the same
    [now] gives what pruning once gives. *)
Theorem C3_prune_retains_and_idempotent (now : datetime) (times : list datetime) :
  let window_start := datetime_minus now window_delta in
  window_start = now - 2000000
  /\ prune window_start times = retain_after (now - 2000000) times
  /\ Forall (fun time => now - 2000000 < time) (prune window_start times)
  /\ prune window_start (prune window_start times) = prune window_start times.
Proof.
  cbv zeta. rewrite datetime_minus_window, !prune_retain.
  repeat split.
  - apply retain_after_all.
  - apply retain_after_id, retain_after_all.
Qed.

(** ** The connection: [open] and [close] *)

Ltac unfold_py :=
  unfold bind, ret, raise, get, try_except, try_except_ClientError, try_finally,
    set_connection, set_cached_rate_limit, set_recent_send_times, set_header,
    call_now, call_session_client, call_get_send_quota, call_send_raw_email,
    sleep, log, close.

Section Connection.

Variable cfg : settings.
Variable w : world.

Lemma open_connected (s : state) (c : conn) :
  connection s = Some c -> open cfg w s = (Ok (Some false), s).
Proof. intros H. unfold open. unfold_py. now rewrite H. Qed.

Lemma open_created (s : state) (c : conn) :
  connection s = None -> session_client w (client_calls s) = Ok c ->
  open cfg w s
  = (Ok None, snd (set_connection (Some c) (snd (call_session_client w s)))).
Proof.
  intros H Hc. unfold open. unfold_py. rewrite H. cbn. now rewrite Hc.
Qed.

Lemma open_failed (s : state) (e : exn) :
  connection s = None -> session_client w (client_calls s) = Raise e ->
  open cfg w s
  = (if fail_silently cfg then Ok None else Raise e, snd (call_session_client w s)).
Proof.
  intros H Hc. unfold open. unfold_py. rewrite H. cbn. rewrite Hc.
  destruct (fail_silently cfg); now rewrite H.
Qed.

(** Whatever [open] returns is false in a condition: it is [False] or
    [None], never [True]. *)
Lemma open_result_falsy (s s' : state) (v : option bool) :
  open cfg w s = (Ok v, s') -> truthy v = false.
Proof.
  unfold open. unfold_py. destruct (connection s); cbn.
  - intros [= <- _]. reflexivity.
  - destruct (session_client w (client_calls s)); cbn.
    + intros [= <- _]. reflexivity.
    + destruct (fail_silently cfg); [intros [= <- _]; reflexivity | discriminate].
Qed.

(** [open] touches the connection, the count of client calls and the
    trace, nothing else. *)
Lemma open_frame (s s' : state) (r : result (option bool)) :
  open cfg w s = (r, s') ->
  cached_rate_limits s' = cached_rate_limits s
  /\ recent_send_times s' = recent_send_times s
  /\ extra_headers s' = extra_headers s
  /\ clock_reads s' = clock_reads s
  /\ quota_calls s' = quota_calls s
  /\ send_calls s' = send_calls s
  /\ (trace s' = trace s \/ trace s' = EvClient :: trace s)
  /\ (connection s = None \/ connection s' = connection s).
Proof.
  unfold open. unfold_py. destruct (connection s) eqn:Hc; cbn.
  - intros [= <- <-]. rewrite Hc. repeat split; auto.
  - destruct (session_client w (client_calls s)); cbn.
    + intros [= <- <-]. cbn. repeat split; auto.
    + destruct (fail_silently cfg); intros [= <- <-]; cbn; repeat split; auto.
Qed.

End Connection.

(** ** The rate-limit cache: [get_rate_limit] *)

Section RateLimit.

Variable cfg : settings.
Variable w : world.

Lemma get_rate_limit_cached (s : state) (r : float) :
  cached_rate_limits s !! ACCESS_KEY cfg = Some r ->
  get_rate_limit cfg w s = (Ok r, s).
Proof. intros H. unfold get_rate_limit. unfold_py. now rewrite H. Qed.

(** With an empty cache entry and a connection at hand (after [open]),
    the lookup is one quota call followed by the store. *)
Lemma get_rate_limit_query (s s1 : state) (v : option bool) (c : conn) :
  cached_rate_limits s !! ACCESS_KEY cfg = None ->
  open cfg w s = (Ok v, s1) -> connection s1 = Some c ->
  get_rate_limit cfg w s
  = match get_send_quota w (quota_calls s1) with
    | Ok {| MaxSendRate := Some r |} =>
        (Ok r, snd (set_cached_rate_limit (ACCESS_KEY cfg) r
                      (snd (call_get_send_quota w s1))))
    | Ok {| MaxSendRate := None |} =>
        (Raise (KeyError "MaxSendRate"), snd (call_get_send_quota w s1))
    | Raise e => (Raise e, snd (call_get_send_quota w s1))
    end.
Proof.
  intros Hk Ho Hc. pose proof (open_result_falsy _ _ _ _ _ Ho) as Hv.
  unfold get_rate_limit, bind at 1, get at 1. rewrite Hk.
  unfold bind at 1. rewrite Ho. unfold bind at 1, get at 1. rewrite Hc, Hv.
  unfold_py. destruct (get_send_quota w (quota_calls s1)) as [[[r|]]|e]; reflexivity.
Qed.

Lemma get_rate_limit_frame (s s' : state) (r : result float) :
  get_rate_limit cfg w s = (r, s') ->
  recent_send_times s' = recent_send_times s
  /\ extra_headers s' = extra_headers s
  /\ clock_reads s' = clock_reads s
  /\ send_calls s' = send_calls s
  /\ (connection s = None \/ connection s' = connection s).
Proof.
  destruct (cached_rate_limits s !! ACCESS_KEY cfg) as [r0|] eqn:Hk.
  - rewrite (get_rate_limit_cached _ _ Hk). intros [= <- <-]. repeat split; auto.
  - destruct (open cfg w s) as [[v|e] s1] eqn:Ho.
    + pose proof (open_frame _ _ _ _ _ Ho) as (_ & Ht & Hh & Hn & _ & Hs & _ & Hc).
      destruct (connection s1) as [c|] eqn:Hc1.
      * rewrite (get_rate_limit_query _ _ _ _ Hk Ho Hc1).
        destruct (get_send_quota w (quota_calls s1)) as [[[r1|]]|e];
          intros [= <- <-]; cbn; rewrite Hc1; repeat split; auto;
          destruct Hc as [Hc|Hc]; auto; right; congruence.
      * unfold get_rate_limit, bind at 1, get at 1. rewrite Hk.
        unfold bind at 1. rewrite Ho. unfold bind at 1, get at 1. rewrite Hc1.
        intros [= <- <-]. repeat split; auto.
        destruct Hc as [Hc|Hc]; auto.
    + pose proof (open_frame _ _ _ _ _ Ho) as (_ & Ht & Hh & Hn & _ & Hs & _ & Hc).
      unfold get_rate_limit, bind at 1, get at 1. rewrite Hk.
      unfold bind at 1. rewrite Ho. intros [= <- <-]. repeat split; auto.
Qed.

(** A successful lookup leaves its answer in the cache. *)
Lemma get_rate_limit_stored (s s' : state) (r : float) :
  get_rate_limit cfg w s = (Ok r, s') ->
  cached_rate_limits s' !! ACCESS_KEY cfg = Some r.
Proof.
  destruct (cached_rate_limits s !! ACCESS_KEY cfg) as [r0|] eqn:Hk.
  - rewrite (get_rate_limit_cached _ _ Hk). now intros [= <- <-].
  - destruct (open cfg w s) as [[v|e] s1] eqn:Ho.
    + destruct (connection s1) as [c|] eqn:Hc1.
      * rewrite (get_rate_limit_query _ _ _ _ Hk Ho Hc1).
        destruct (get_send_quota w (quota_calls s1)) as [[[r1|]]|e];
          intros [= <- <-]. cbn. apply lookup_insert_eq.
      * unfold get_rate_limit, bind at 1, get at 1. rewrite Hk.
        unfold bind at 1. rewrite Ho. unfold bind at 1, get at 1. rewrite Hc1.
        discriminate.
    + unfold get_rate_limit, bind at 1, get at 1. rewrite Hk.
      unfold bind at 1. rewrite Ho. discriminate.
Qed.

End RateLimit.

(** C6. [get_rate_limit] answers from the cache with no remote call (the
    state, and so the trace, is unchanged) when a value is cached for the
    credential identity; with nothing cached it fails when no connection can
    be established, without a quota call; and when the connection and the
    quota query succeed it stores [MaxSendRate] under the credential
    identity and returns it. *)
Theorem C6_get_rate_limit (cfg : settings) (w : world) (s : state) :
  (forall r : float,
     cached_rate_limits s !! ACCESS_KEY cfg = Some r ->
     get_rate_limit cfg w s = (Ok r, s))
  /\ (forall e : exn,
        cached_rate_limits s !! ACCESS_KEY cfg = None ->
        connection s = None ->
        session_client w (client_calls s) = Raise e ->
        get_rate_limit cfg w s
        = (Raise (if fail_silently cfg then NoConnection else e),
           snd (call_session_client w s)))
  /\ (forall (c : conn) (r : float),
        cached_rate_limits s !! ACCESS_KEY cfg = None ->
        connection s = Some c
        \/ connection s = None /\ session_client w (client_calls s) = Ok c ->
        forall s1, s1 = snd (open cfg w s) ->
        get_send_quota w (quota_calls s) = Ok {| MaxSendRate := Some r |} ->
        get_rate_limit cfg w s
        = (Ok r, snd (set_cached_rate_limit (ACCESS_KEY cfg) r
                        (snd (call_get_send_quota w s1))))
          /\ cached_rate_limits (snd (get_rate_limit cfg w s))
             = <[ACCESS_KEY cfg := r]> (cached_rate_limits s)
          /\ trace (snd (get_rate_limit cfg w s)) = EvGetSendQuota :: trace s1).
Proof.
  split; [|split].
  - intros r H. now apply get_rate_limit_cached.
  - intros e Hk Hc He.
    unfold get_rate_limit, bind at 1, get at 1. rewrite Hk.
    unfold bind at 1. rewrite (open_failed _ _ _ _ Hc He).
    destruct (fail_silently cfg); [|reflexivity].
    unfold bind at 1, get at 1. cbn. now rewrite Hc.
  - intros c r Hk Hconn s1 Hs1 Hq.
    assert (Ho : exists v, open cfg w s = (Ok v, s1) /\ connection s1 = Some c).
    { subst s1. destruct Hconn as [Hc|[Hc Hs]].
      - rewrite (open_connected _ _ _ _ Hc). eauto.
      - rewrite (open_created _ _ _ _ Hc Hs). eauto. }
    clear Hs1. destruct Ho as (v & Ho & Hc1).
    pose proof (open_frame _ _ _ _ _ Ho) as (Hca & _ & _ & _ & Hqc & _).
    rewrite (get_rate_limit_query _ _ _ _ _ _ Hk Ho Hc1).
    rewrite Hqc, Hq. cbn. rewrite Hca. auto.
Qed.

(** ** The throttle *)

Section Throttle.

Variable cfg : settings.
Variable w : world.

Lemma maybe_delay_below (now : datetime) (rate_limit f : float)
    (new_send_times : list datetime) (s : state) :
  int_gt_float (Z.of_nat (length new_send_times)) (threshold rate_limit f) = false ->
  maybe_delay now rate_limit f new_send_times s = (Ok tt, s).
Proof.
  intros H. unfold maybe_delay. now rewrite H.
Qed.

Lemma maybe_delay_above (now : datetime) (rate_limit f : float)
    (oldest : datetime) (rest : list datetime) (s : state) :
  int_gt_float (Z.of_nat (length (oldest :: rest))) (threshold rate_limit f) = true ->
  let delay := fsub window (total_seconds (datetime_diff now oldest)) in
  maybe_delay now rate_limit f (oldest :: rest) s
  = (Ok tt,
     snd ((if float_gt_int delay 0 then sleep delay else ret tt)
            (snd (log (EvDelay delay) s)))).
Proof.
  intros H delay. unfold maybe_delay. rewrite H.
  fold delay. unfold bind, log, sleep, log, ret.
  now destruct (float_gt_int delay 0).
Qed.

(** An empty retained list can exceed the threshold only when the
    threshold is negative; [new_send_times[0]] then raises. *)
Lemma maybe_delay_empty (now : datetime) (rate_limit f : float) (s : state) :
  int_gt_float 0 (threshold rate_limit f) = true ->
  maybe_delay now rate_limit f [] s = (Raise IndexError, s).
Proof.
  intros H. unfold maybe_delay.
  change (Z.of_nat (length (@nil datetime))) with 0.
  now rewrite H.
Qed.

(** Whatever the branch taken, [maybe_delay] leaves the list alone. *)
Lemma maybe_delay_frame (now : datetime) (rate_limit f : float)
    (new_send_times : list datetime) (s s' : state) (r : result unit) :
  maybe_delay now rate_limit f new_send_times s = (r, s') ->
  recent_send_times s' = recent_send_times s
  /\ cached_rate_limits s' = cached_rate_limits s
  /\ connection s' = connection s
  /\ extra_headers s' = extra_headers s
  /\ clock_reads s' = clock_reads s
  /\ send_calls s' = send_calls s.
Proof.
  unfold maybe_delay.
  destruct (int_gt_float _ _); [|intros [= <- <-]; repeat split].
  destruct new_send_times as [|oldest rest]; [intros [= <- <-]; repeat split|].
  unfold bind, log, sleep, log, ret.
  destruct (float_gt_int _ 0); intros [= <- <-]; repeat split.
Qed.

(** The throttle once the rate limit is known: prune, decide, append. *)
Lemma throttle_after_lookup (f : float) (s s1 : state) (rate_limit : float) :
  get_rate_limit cfg w (snd (call_now w s)) = (Ok rate_limit, s1) ->
  let now := datetime_now w (clock_reads s) in
  let kept := prune (datetime_minus now window_delta) (recent_send_times s) in
  throttle cfg w f s
  = match maybe_delay now rate_limit f kept
            (snd (set_recent_send_times kept s1)) with
    | (Ok _, s2) => (Ok tt, snd (set_recent_send_times (kept ++ [now]) s2))
    | (Raise e, s2) => (Raise e, s2)
    end.
Proof.
  intros H now kept.
  pose proof (get_rate_limit_frame _ _ _ _ _ H) as (Ht & _).
  change (recent_send_times (snd (call_now w s))) with (recent_send_times s) in Ht.
  unfold call_now in H. cbn [snd] in H.
  unfold throttle, bind, call_now, get. rewrite H. fold now.
  unfold set_recent_send_times. cbn [snd]. rewrite Ht. fold kept.
  destruct (maybe_delay now rate_limit f kept _) as [[[]|e] s2] eqn:Hd; [|reflexivity].
  pose proof (maybe_delay_frame _ _ _ _ _ _ _ Hd) as (Ht2 & _).
  rewrite Ht2. reflexivity.
Qed.

(** When the lookup fails, so does the throttle, before any pruning. *)
Lemma throttle_lookup_failed (f : float) (s s1 : state) (e : exn) :
  get_rate_limit cfg w (snd (call_now w s)) = (Raise e, s1) ->
  throttle cfg w f s = (Raise e, s1).
Proof.
  intros H. unfold throttle. unfold bind at 1.
  change (call_now w s)
    with (Ok (datetime_now w (clock_reads s)), snd (call_now w s)).
  cbv iota beta. unfold bind at 1. now rewrite H.
Qed.

End Throttle.

(** C1 as stated fails on the empty retained sequence. With a rate of 10
    and a factor of -0.5 the threshold is -10.0; no entry is retained, and
    zero exceeds the threshold; but there is no oldest entry to compute a
    delay from: [new_send_times[0]] raises [IndexError], no delay is
    computed and nothing sleeps. *)
Lemma C1_empty_sequence_raises :
  let w := steady_world 0 in
  let f := Ffin (-1 # 2) in
  let now := datetime_now w (clock_reads warm_state) in
  let kept := prune (datetime_minus now window_delta) (recent_send_times warm_state) in
  let after := throttle (cfg_of false (Some f)) w f warm_state in
  kept = []
  /\ threshold (Ffin 10) f = Ffin (-10)
  /\ int_gt_float (Z.of_nat (length kept)) (threshold (Ffin 10) f) = true
  /\ fst after = Raise IndexError
  /\ trace (snd after) = [EvNow 0].
Proof. vm_compute. repeat split. Qed.

(** C1, as amended. In the throttle step, with the rate limit looked up and
    the threshold [rate_limit * 2.0 * throttle_factor] as the float that
    line 140 computes, a delay is considered only when the number of
    retained entries is strictly greater than the threshold: at or below it
    (and against a NaN) nothing is computed and nothing sleeps; above it,
    when the retained sequence is not empty, the delay is
    [2.0 - (now - oldest retained entry)] and the thread sleeps exactly when
    that delay is positive. *)
Theorem C1_throttle_delay_rule (cfg : settings) (w : world) (f : float)
    (s s1 : state) (rate_limit : float) :
  get_rate_limit cfg w (snd (call_now w s)) = (Ok rate_limit, s1) ->
  let now := datetime_now w (clock_reads s) in
  let kept := prune (datetime_minus now window_delta) (recent_send_times s) in
  let limit := fmul (fmul rate_limit (Ffin 2)) f in
  let count := Z.of_nat (length kept) in
  (int_gt_float count limit = true
   <-> match limit with
       | Ffin q => (q < inject_Z count)%Q
       | Finf negative => negative = true
       | Fnan => False
       end)
  /\ (int_gt_float count limit = false ->
      fst (throttle cfg w f s) = Ok tt
      /\ trace (snd (throttle cfg w f s)) = trace s1)
  /\ (forall (oldest : datetime) (rest : list datetime),
        int_gt_float count limit = true -> kept = oldest :: rest ->
        let delay := fsub window (total_seconds (datetime_diff now oldest)) in
        delay = fsub (Ffin 2) (truediv (now - oldest) (10 ^ 6))
        /\ fst (throttle cfg w f s) = Ok tt
        /\ (float_gt_int delay 0 = true ->
            trace (snd (throttle cfg w f s))
            = EvSleep delay :: EvDelay delay :: trace s1)
        /\ (float_gt_int delay 0 = false ->
            trace (snd (throttle cfg w f s)) = EvDelay delay :: trace s1)).
Proof.
  intros H now kept limit count.
  rewrite (throttle_after_lookup _ _ _ _ _ _ H). fold now kept.
  change (threshold rate_limit f) with limit. split; [|split].
  - destruct limit as [|negative|q]; cbn [int_gt_float].
    + split; [discriminate|tauto].
    + reflexivity.
    + apply Qltb_lt.
  - intros Hle. rewrite maybe_delay_below by exact Hle. auto.
  - intros oldest rest Hlt Hk delay. unfold count in Hlt. rewrite Hk in Hlt |- *.
    split; [unfold delay; now rewrite total_seconds_diff|].
    rewrite maybe_delay_above by exact Hlt. fold delay.
    unfold log, sleep, log, ret. cbn [snd].
    split; [now destruct (float_gt_int delay 0)|]. split.
    + intros Hp. now rewrite Hp.
    + intros Hn. now rewrite Hn.
Qed.

(** ** One message: [send_one] *)

Section SendOne.

Variable cfg : settings.
Variable w : world.

Lemma headers_of_set_header (m m' : msg_ref) (key : string) (v : pyval) (s : state) :
  headers_of (exec (set_header m key v) s) m'
  = if decide (m = m') then <[key := v]> (headers_of s m) else headers_of s m'.
Proof.
  unfold exec, set_header, headers_of. cbn [snd extra_headers].
  destruct (decide (m = m')) as [<-|Hne].
  - now rewrite lookup_insert_eq.
  - now rewrite lookup_insert_ne.
Qed.

Lemma record_error_ok (m : msg_ref) (err : gmap string pyval)
    (keys : list string) (s : state) :
  record_error m err keys s = (Ok tt, exec (record_error m err keys) s).
Proof.
  unfold exec. revert s. induction keys as [|key keys IH]; intros s; cbn.
  - reflexivity.
  - unfold bind, set_header. cbv iota beta. apply IH.
Qed.

Lemma record_error_cons (m : msg_ref) (err : gmap string pyval)
    (key : string) (keys : list string) (s : state) :
  exec (record_error m err (key :: keys)) s
  = exec (record_error m err keys) (exec (set_header m key (getattr err key)) s).
Proof. reflexivity. Qed.

(** Every key listed is set to the attribute of the error, or to [None]
    when the error has no such attribute; other keys keep their value. *)
Lemma record_error_lookup (m : msg_ref) (err : gmap string pyval)
    (keys : list string) (s : state) (k : string) :
  headers_of (exec (record_error m err keys) s) m !! k
  = if decide (k ∈ keys) then Some (getattr err k) else headers_of s m !! k.
Proof.
  revert s. induction keys as [|key keys IH]; intros s.
  - destruct (decide (k ∈ [])) as [Hin|_]; [|reflexivity].
    now apply not_elem_of_nil in Hin.
  - rewrite record_error_cons, IH. rewrite headers_of_set_header.
    destruct (decide (m = m)) as [_|]; [|congruence].
    destruct (decide (k ∈ keys)) as [Hin|Hnin].
    + destruct (decide (k ∈ key :: keys)) as [_|Hn]; [reflexivity|].
      exfalso. apply Hn. now apply list_elem_of_further.
    + destruct (decide (key = k)) as [->|Hne].
      * rewrite lookup_insert_eq.
        destruct (decide (k ∈ k :: keys)) as [_|Hn]; [reflexivity|].
        exfalso. apply Hn. apply list_elem_of_here.
      * rewrite lookup_insert_ne by exact Hne.
        destruct (decide (k ∈ key :: keys)) as [Hin|_]; [|reflexivity].
        apply elem_of_cons in Hin as [->|Hin]; [congruence|contradiction].
Qed.


Lemma record_error_frame (m : msg_ref) (err : gmap string pyval)
    (keys : list string) (s : state) :
  let s' := exec (record_error m err keys) s in
  connection s' = connection s
  /\ cached_rate_limits s' = cached_rate_limits s
  /\ recent_send_times s' = recent_send_times s
  /\ clock_reads s' = clock_reads s
  /\ send_calls s' = send_calls s
  /\ quota_calls s' = quota_calls s
  /\ trace s' = trace s.
Proof.
  cbv zeta. revert s. induction keys as [|key keys IH]; intros s.
  - repeat split.
  - rewrite record_error_cons.
    destruct (IH (exec (set_header m key (getattr err key)) s))
      as (-> & -> & -> & -> & -> & -> & ->).
    repeat split.
Qed.

Lemma send_one_ok (message : msg_ref) (num_sent : nat) (s : state) (resp : response) :
  send_raw_email w (send_calls s) message = Ok resp ->
  send_one cfg w message num_sent s = (Ok (S num_sent), sent_state w message resp s).
Proof.
  intros H. unfold send_one, try_except_ClientError, bind at 1, call_send_raw_email.
  rewrite H. reflexivity.
Qed.

Lemma send_one_client_error (message : msg_ref) (num_sent : nat) (s : state)
    (err : gmap string pyval) :
  send_raw_email w (send_calls s) message = Raise (ClientError err) ->
  send_one cfg w message num_sent s
  = (if fail_silently cfg then Ok num_sent else Raise (ClientError err),
     failed_state w message err s).
Proof.
  intros H. unfold send_one, try_except_ClientError, bind at 1, call_send_raw_email.
  rewrite H. cbv iota beta. unfold bind at 1. rewrite record_error_ok.
  unfold failed_state, exec at 2, call_send_raw_email. cbn [snd].
  now destruct (fail_silently cfg).
Qed.

Lemma send_one_other_error (message : msg_ref) (num_sent : nat) (s : state) (e : exn) :
  send_raw_email w (send_calls s) message = Raise e ->
  is_client_error e = false ->
  send_one cfg w message num_sent s
  = (Raise e, exec (call_send_raw_email w message) s).
Proof.
  intros H He. unfold send_one, try_except_ClientError, bind at 1, exec,
    call_send_raw_email.
  rewrite H. now destruct e.
Qed.

(** Whatever the outcome, one send is one remote call and touches only
    the message's headers. *)
Lemma send_one_frame (message : msg_ref) (num_sent : nat) (s : state) :
  let s' := exec (send_one cfg w message num_sent) s in
  connection s' = connection s
  /\ cached_rate_limits s' = cached_rate_limits s
  /\ recent_send_times s' = recent_send_times s
  /\ clock_reads s' = clock_reads s
  /\ send_calls s' = S (send_calls s)
  /\ quota_calls s' = quota_calls s
  /\ trace s' = EvSendRawEmail message :: trace s.
Proof.
  cbv zeta. unfold exec at 1 2 3 4 5 6 7.
  destruct (send_raw_email w (send_calls s) message) as [resp|e] eqn:H.
  - rewrite (send_one_ok _ _ _ _ H). repeat split.
  - destruct (is_client_error e) eqn:He.
    + destruct e as [err| | | |]; try discriminate.
      rewrite (send_one_client_error _ _ _ _ H). cbn [snd]. unfold failed_state.
      destruct (record_error_frame message err error_keys
                  (exec (call_send_raw_email w message) s))
        as (-> & -> & -> & -> & -> & -> & ->).
      repeat split.
    + rewrite (send_one_other_error _ _ _ _ H He). repeat split.
Qed.

End SendOne.

(** ** The loop and [send_messages] *)

Section SendMessages.

Variable cfg : settings.
Variable w : world.

Lemma throttle_frame (f : float) (s s' : state) (r : result unit) :
  throttle cfg w f s = (r, s') ->
  extra_headers s' = extra_headers s
  /\ send_calls s' = send_calls s
  /\ clock_reads s' = S (clock_reads s)
  /\ (connection s = None \/ connection s' = connection s).
Proof.
  destruct (get_rate_limit cfg w (snd (call_now w s))) as [[rl|e] s1] eqn:H.
  - rewrite (throttle_after_lookup _ _ _ _ _ _ H).
    pose proof (get_rate_limit_frame _ _ _ _ _ H) as (_ & Hh & Hn & Hs & Hc).
    cbn [snd call_now extra_headers clock_reads send_calls connection] in Hh, Hn, Hs, Hc.
    destruct (maybe_delay _ _ _ _ _) as [[[]|e] s2] eqn:Hd;
      pose proof (maybe_delay_frame _ _ _ _ _ _ _ Hd) as (_ & _ & Hc2 & Hh2 & Hn2 & Hs2);
      cbn [snd set_recent_send_times extra_headers clock_reads send_calls connection]
        in Hc2, Hh2, Hn2, Hs2;
      intros [= <- <-]; cbn [snd set_recent_send_times extra_headers clock_reads
                               send_calls connection];
      (repeat split; [congruence | congruence | congruence |]);
      destruct Hc as [Hc|Hc]; auto; right; congruence.
  - rewrite (throttle_lookup_failed _ _ _ _ _ _ H).
    pose proof (get_rate_limit_frame _ _ _ _ _ H) as (_ & Hh & Hn & Hs & Hc).
    cbn [snd call_now extra_headers clock_reads send_calls connection] in Hh, Hn, Hs, Hc.
    intros [= <- <-]. auto.
Qed.

Lemma throttle_gate_frame (s s' : state) (r : result unit) :
  throttle_gate cfg w s = (r, s') ->
  extra_headers s' = extra_headers s
  /\ send_calls s' = send_calls s
  /\ (connection s = None \/ connection s' = connection s).
Proof.
  unfold throttle_gate. destruct (throttle_factor cfg) as [f|].
  - intros H. apply throttle_frame in H as (? & ? & _ & ?). auto.
  - intros [= <- <-]. auto.
Qed.

Lemma send_loop_cons (message : msg_ref) (rest : list msg_ref)
    (num_sent : nat) (s : state) :
  send_loop cfg w (message :: rest) num_sent s
  = match throttle_gate cfg w s with
    | (Ok _, s1) =>
        match send_one cfg w message num_sent s1 with
        | (Ok num_sent', s2) => send_loop cfg w rest num_sent' s2
        | (Raise e, s2) => (Raise e, s2)
        end
    | (Raise e, s1) => (Raise e, s1)
    end.
Proof. reflexivity. Qed.

Lemma send_loop_app (pre post : list msg_ref) (num_sent : nat) (s : state) :
  send_loop cfg w (pre ++ post) num_sent s
  = match send_loop cfg w pre num_sent s with
    | (Ok num_sent', s') => send_loop cfg w post num_sent' s'
    | (Raise e, s') => (Raise e, s')
    end.
Proof.
  revert num_sent s. induction pre as [|m pre IH]; intros num_sent s.
  - reflexivity.
  - rewrite <- app_comm_cons, !send_loop_cons.
    destruct (throttle_gate cfg w s) as [[[]|e] s1]; [|reflexivity].
    destruct (send_one cfg w m num_sent s1) as [[n'|e] s2]; [|reflexivity].
    apply IH.
Qed.

(** When the loop runs to its end, every message was handed to the
    provider once, in order, and [num_sent] grew by the number accepted. *)
Lemma send_loop_count (msgs : list msg_ref) (num_sent n : nat) (s s' : state) :
  send_loop cfg w msgs num_sent s = (Ok n, s') ->
  n = (num_sent + count_sent w (send_calls s) msgs)%nat
  /\ send_calls s' = (send_calls s + length msgs)%nat.
Proof.
  revert num_sent s. induction msgs as [|m msgs IH]; intros num_sent s.
  - cbn. intros [= <- <-]. split; lia.
  - rewrite send_loop_cons.
    destruct (throttle_gate cfg w s) as [[[]|e] s1] eqn:Hg; [|discriminate].
    apply throttle_gate_frame in Hg as (_ & Hs & _).
    pose proof (send_one_frame cfg w m num_sent s1) as (_ & _ & _ & _ & Hs2 & _).
    unfold exec in Hs2.
    destruct (send_raw_email w (send_calls s1) m) as [resp|e] eqn:Ho.
    + rewrite (send_one_ok _ _ _ _ _ _ Ho) in Hs2 |- *. cbn [snd] in Hs2.
      intros H. apply IH in H as (-> & ->). rewrite Hs2, Hs. cbn [count_sent length].
      rewrite <- Hs, Ho. split; lia.
    + destruct (is_client_error e) eqn:He.
      * destruct e as [err| | | |]; try discriminate.
        rewrite (send_one_client_error _ _ _ _ _ _ Ho) in Hs2 |- *. cbn [snd] in Hs2.
        destruct (fail_silently cfg); [|discriminate].
        intros H. apply IH in H as (-> & ->). rewrite Hs2, Hs.
        cbn [count_sent length]. rewrite <- Hs, Ho. split; lia.
      * rewrite (send_one_other_error _ _ _ _ _ _ Ho He). discriminate.
Qed.

(** After [open], with a connection at hand, [send_messages] is the loop:
    the close at line 186 never runs, for [new_conn_created] is never
    true. *)
Lemma send_messages_started (msgs : list msg_ref)
    (s s1 : state) (v : option bool) (c : conn) :
  msgs <> [] ->
  open cfg w s = (Ok v, s1) -> connection s1 = Some c ->
  send_messages cfg w msgs s
  = match send_loop cfg w msgs 0 s1 with
    | (Ok num_sent, s') => (Ok (Some num_sent), s')
    | (Raise e, s') => (Raise e, s')
    end.
Proof.
  intros Hne Ho Hc. pose proof (open_result_falsy _ _ _ _ _ Ho) as Hv.
  destruct msgs as [|m rest]; [congruence|].
  unfold send_messages. unfold bind at 1. rewrite Ho.
  unfold bind at 1, get at 1. rewrite Hc. unfold bind at 1.
  destruct (send_loop cfg w (m :: rest) 0 s1) as [[n|e] s'] eqn:Hl; [|reflexivity].
  rewrite Hv. reflexivity.
Qed.

End SendMessages.

(** C7. When the remote send of a message raises a client error, the six
    failure fields are recorded on that message; without fail-silently the
    error reaches the caller of [send_messages] and no later message is
    processed; with fail-silently the loop goes on with the next message
    and the counter unchanged, so that a batch of two whose first message
    fails and whose second succeeds returns 1. *)
Theorem C7_client_error_handling (cfg : settings) (w : world)
    (pre : list msg_ref) (message : msg_ref) (rest : list msg_ref)
    (sa s0 s s1 : state) (v : option bool) (c : conn)
    (num_sent : nat) (err : gmap string pyval) :
  open cfg w sa = (Ok v, s0) -> connection s0 = Some c ->
  send_loop cfg w pre 0 s0 = (Ok num_sent, s) ->
  throttle_gate cfg w s = (Ok tt, s1) ->
  send_raw_email w (send_calls s1) message = Raise (ClientError err) ->
  let s2 := failed_state w message err s1 in
  Forall (fun key => headers_of s2 message !! key = Some (getattr err key))
    ["status"; "reason"; "body"; "request_id"; "error_code"; "error_message"]%string
  /\ (fail_silently cfg = false ->
      send_messages cfg w (pre ++ message :: rest) sa = (Raise (ClientError err), s2)
      /\ send_calls s2 = S (send_calls s1))
  /\ (fail_silently cfg = true ->
      send_messages cfg w (pre ++ message :: rest) sa
      = match send_loop cfg w rest num_sent s2 with
        | (Ok n, s') => (Ok (Some n), s')
        | (Raise e, s') => (Raise e, s')
        end)
  /\ (fail_silently cfg = true -> pre = [] ->
      forall (m2 : msg_ref) (s3 : state) (resp : response),
        rest = [m2] ->
        throttle_gate cfg w s2 = (Ok tt, s3) ->
        send_raw_email w (send_calls s3) m2 = Ok resp ->
        send_messages cfg w [message; m2] sa
        = (Ok (Some 1%nat), sent_state w m2 resp s3)).
Proof.
  intros Ho Hc Hpre Hg He s2.
  assert (Hne : pre ++ message :: rest <> []) by (now destruct pre).
  assert (Hloop : send_loop cfg w (pre ++ message :: rest) 0 s0
                  = if fail_silently cfg then send_loop cfg w rest num_sent s2
                    else (Raise (ClientError err), s2)).
  { rewrite send_loop_app, Hpre, send_loop_cons, Hg.
    rewrite (send_one_client_error _ _ _ _ _ _ He). fold s2.
    now destruct (fail_silently cfg). }
  split; [|split; [|split]].
  - apply Forall_forall. intros key Hin. unfold s2, failed_state.
    rewrite record_error_lookup.
    destruct (decide (key ∈ error_keys)) as [_|Hn]; [reflexivity|contradiction].
  - intros Hfs. rewrite (send_messages_started _ _ _ _ _ _ _ Hne Ho Hc), Hloop, Hfs.
    split; [reflexivity|].
    unfold s2, failed_state.
    now destruct (record_error_frame message err error_keys
                    (exec (call_send_raw_email w message) s1))
      as (_ & _ & _ & _ & -> & _).
  - intros Hfs. now rewrite (send_messages_started _ _ _ _ _ _ _ Hne Ho Hc), Hloop, Hfs.
  - intros Hfs -> m2 s3 resp -> Hg3 Hr.
    cbn [app] in Hne, Hloop. cbn in Hpre. injection Hpre as <- <-.
    rewrite (send_messages_started _ _ _ _ _ _ _ Hne Ho Hc), Hloop, Hfs.
    rewrite send_loop_cons, Hg3, (send_one_ok _ _ _ _ _ _ Hr). reflexivity.
Qed.

(** C10. Fail-silently covers client errors only: when the remote send of
    a message raises any other exception, that exception reaches the caller
    of [send_messages] whatever the fail-silently setting, no later message
    is sent, and the headers of the messages are left as they were. *)
Theorem C10_other_errors_propagate (cfg : settings) (w : world)
    (pre : list msg_ref) (message : msg_ref) (rest : list msg_ref)
    (sa s0 s s1 : state) (v : option bool) (c : conn)
    (num_sent : nat) (e : exn) :
  open cfg w sa = (Ok v, s0) -> connection s0 = Some c ->
  send_loop cfg w pre 0 s0 = (Ok num_sent, s) ->
  throttle_gate cfg w s = (Ok tt, s1) ->
  send_raw_email w (send_calls s1) message = Raise e ->
  is_client_error e = false ->
  let s2 := exec (call_send_raw_email w message) s1 in
  send_messages cfg w (pre ++ message :: rest) sa = (Raise e, s2)
  /\ extra_headers s2 = extra_headers s1
  /\ send_calls s2 = S (send_calls s1)
  /\ trace s2 = EvSendRawEmail message :: trace s1.
Proof.
  intros Ho Hc Hpre Hg He Hk s2.
  assert (Hne : pre ++ message :: rest <> []) by (now destruct pre).
  rewrite (send_messages_started _ _ _ _ _ _ _ Hne Ho Hc).
  rewrite send_loop_app, Hpre, send_loop_cons, Hg.
  rewrite (send_one_other_error _ _ _ _ _ _ He Hk). fold s2.
  repeat split.
Qed.

(** ** What [send_messages] returns *)

Section Returns.

Variable cfg : settings.
Variable w : world.

Lemma send_messages_open_failed (msgs : list msg_ref) (s s1 : state) (e : exn) :
  msgs <> [] -> open cfg w s = (Raise e, s1) ->
  send_messages cfg w msgs s = (Raise e, s1).
Proof.
  intros Hne Ho. destruct msgs as [|m rest]; [congruence|].
  unfold send_messages. unfold bind at 1. now rewrite Ho.
Qed.

Lemma send_messages_no_connection (msgs : list msg_ref) (s s1 : state)
    (v : option bool) :
  msgs <> [] -> open cfg w s = (Ok v, s1) -> connection s1 = None ->
  send_messages cfg w msgs s = (Ok None, s1).
Proof.
  intros Hne Ho Hc. destruct msgs as [|m rest]; [congruence|].
  unfold send_messages. unfold bind at 1. rewrite Ho.
  unfold bind at 1, get at 1. now rewrite Hc.
Qed.

Lemma maybe_delay_total (now : datetime) (rate_limit f : float)
    (new_send_times : list datetime) (s : state) :
  int_gt_float 0 (threshold rate_limit f) = false ->
  exists s', maybe_delay now rate_limit f new_send_times s = (Ok tt, s').
Proof.
  intros Hthr.
  destruct (int_gt_float (Z.of_nat (length new_send_times))
              (threshold rate_limit f)) eqn:E.
  - destruct new_send_times as [|oldest rest].
    + exfalso. change (Z.of_nat (length (@nil datetime))) with 0 in E. congruence.
    + rewrite (maybe_delay_above _ _ _ _ _ _ E). eauto.
  - rewrite (maybe_delay_below _ _ _ _ _ E). eauto.
Qed.

Lemma throttle_gate_ready (s : state) :
  gate_ready cfg s ->
  exists s', throttle_gate cfg w s = (Ok tt, s')
             /\ cached_rate_limits s' = cached_rate_limits s.
Proof.
  unfold gate_ready, throttle_gate. destruct (throttle_factor cfg) as [f|].
  - intros (rl & Hk & Hthr).
    assert (H : get_rate_limit cfg w (snd (call_now w s))
                = (Ok rl, snd (call_now w s))).
    { now apply get_rate_limit_cached. }
    rewrite (throttle_after_lookup _ _ _ _ _ _ H).
    destruct (maybe_delay_total (datetime_now w (clock_reads s)) rl f
                (prune (datetime_minus (datetime_now w (clock_reads s)) window_delta)
                   (recent_send_times s))
                (snd (set_recent_send_times
                        (prune (datetime_minus (datetime_now w (clock_reads s))
                                  window_delta) (recent_send_times s))
                        (snd (call_now w s)))) Hthr) as (s2 & Hd).
    rewrite Hd. eexists. split; [reflexivity|].
    apply maybe_delay_frame in Hd as (_ & Hc & _). cbn [snd set_recent_send_times
      cached_rate_limits]. rewrite Hc. reflexivity.
  - intros _. eexists. split; reflexivity.
Qed.

Lemma gate_ready_cache (s s' : state) :
  cached_rate_limits s' = cached_rate_limits s ->
  gate_ready cfg s -> gate_ready cfg s'.
Proof. unfold gate_ready. intros ->. auto. Qed.

Lemma send_count_step (m : msg_ref) (num_sent : nat) (s : state) :
  match send_raw_email w (send_calls s) m with
  | Ok _ => true
  | Raise e => is_client_error e && fail_silently cfg
  end = true ->
  exists n', send_one cfg w m num_sent s
             = (Ok n', snd (send_one cfg w m num_sent s))
             /\ n' = (num_sent + match send_raw_email w (send_calls s) m with
                                 | Ok _ => 1
                                 | Raise _ => 0
                                 end)%nat.
Proof.
  destruct (send_raw_email w (send_calls s) m) as [resp|e] eqn:Ho.
  - intros _. rewrite (send_one_ok _ _ _ _ _ _ Ho). eexists. split; [reflexivity|lia].
  - intros H. apply andb_true_iff in H as (He & Hfs).
    destruct e as [err| | | |]; try discriminate.
    rewrite (send_one_client_error _ _ _ _ _ _ Ho), Hfs.
    eexists. split; [reflexivity|lia].
Qed.

(** A batch none of whose sends raises to the caller runs to its end. *)
Lemma send_loop_returns (msgs : list msg_ref) (num_sent : nat) (s : state) :
  gate_ready cfg s ->
  batch_survives cfg w (send_calls s) msgs = true ->
  exists s', send_loop cfg w msgs num_sent s
             = (Ok (num_sent + count_sent w (send_calls s) msgs)%nat, s').
Proof.
  revert num_sent s. induction msgs as [|m msgs IH]; intros num_sent s Hready Hb.
  - cbn. exists s. unfold ret. f_equal. f_equal. lia.
  - destruct (throttle_gate_ready s Hready) as (s1 & Hg & Hcache).
    pose proof (throttle_gate_frame _ _ _ _ _ Hg) as (_ & Hs & _).
    pose proof (send_one_frame cfg w m num_sent s1) as (_ & Hc2 & _ & _ & Hs2 & _).
    unfold exec in Hc2, Hs2.
    rewrite send_loop_cons, Hg. cbn [batch_survives count_sent] in Hb |- *.
    rewrite <- Hs in Hb |- *. apply andb_true_iff in Hb as (Hm & Hb).
    destruct (send_count_step m num_sent s1 Hm) as (n' & Hone & Hn').
    rewrite Hone in Hc2, Hs2 |- *. cbn [snd] in Hc2, Hs2.
    destruct (IH n' (snd (send_one cfg w m num_sent s1))) as (s' & Hl).
    + apply (gate_ready_cache s); [|exact Hready]. rewrite Hone. cbn [snd].
      congruence.
    + rewrite Hone. cbn [snd]. now rewrite Hs2.
    + rewrite Hone in Hl. cbn [snd] in Hl. rewrite Hl, Hs2. exists s'.
      f_equal. f_equal. lia.
Qed.

End Returns.

(** C4. [send_messages] returns the absent result on an empty batch,
    leaving the state (and so the trace of remote calls) untouched; it
    returns the absent result when no connection could be opened under
    fail-silently, after the one attempt to connect; and whenever it returns
    otherwise, the result is the number of messages the provider accepted,
    every message of the batch having been sent once. A batch none of whose
    sends raises to the caller does return. *)
Theorem C4_send_messages_result (cfg : settings) (w : world) (s : state) :
  send_messages cfg w [] s = (Ok None, s)
  /\ (forall (msgs : list msg_ref) (e : exn),
        msgs <> [] -> connection s = None ->
        session_client w (client_calls s) = Raise e ->
        fail_silently cfg = true ->
        send_messages cfg w msgs s = (Ok None, exec (call_session_client w) s))
  /\ (forall (msgs : list msg_ref) (r : option nat) (s' : state),
        msgs <> [] ->
        send_messages cfg w msgs s = (Ok r, s') ->
        r = None /\ connection s' = None /\ send_calls s' = send_calls s
        \/ r = Some (count_sent w (send_calls s) msgs)
           /\ send_calls s' = (send_calls s + length msgs)%nat)
  /\ (forall (msgs : list msg_ref) (s1 : state) (v : option bool) (c : conn),
        msgs <> [] ->
        open cfg w s = (Ok v, s1) -> connection s1 = Some c ->
        gate_ready cfg s1 ->
        batch_survives cfg w (send_calls s) msgs = true ->
        exists s', send_messages cfg w msgs s
                   = (Ok (Some (count_sent w (send_calls s) msgs)), s')).
Proof.
  split; [reflexivity|]. split; [|split].
  - intros msgs e Hne Hc He Hfs.
    pose proof (open_failed cfg w s e Hc He) as Ho. rewrite Hfs in Ho.
    apply (send_messages_no_connection cfg w msgs _ _ _ Hne Ho).
    cbn. exact Hc.
  - intros msgs r s' Hne H.
    destruct (open cfg w s) as [[v|e] s1] eqn:Ho.
    + pose proof (open_frame _ _ _ _ _ Ho) as (_ & _ & _ & _ & _ & Hs & _).
      destruct (connection s1) as [c|] eqn:Hc.
      * rewrite (send_messages_started _ _ _ _ _ _ _ Hne Ho Hc) in H.
        destruct (send_loop cfg w msgs 0 s1) as [[n|e] s2] eqn:Hl; [|discriminate].
        injection H as <- <-. apply send_loop_count in Hl as (-> & ->).
        right. rewrite Hs. auto.
      * rewrite (send_messages_no_connection _ _ _ _ _ _ Hne Ho Hc) in H.
        injection H as <- <-. left. auto.
    + rewrite (send_messages_open_failed _ _ _ _ _ _ Hne Ho) in H. discriminate.
  - intros msgs s1 v c Hne Ho Hc Hready Hb.
    pose proof (open_frame _ _ _ _ _ Ho) as (_ & _ & _ & _ & _ & Hs & _).
    rewrite (send_messages_started _ _ _ _ _ _ _ Hne Ho Hc).
    rewrite <- Hs in Hb |- *.
    destruct (send_loop_returns cfg w msgs 0 s1 Hready Hb) as (s' & ->).
    eauto.
Qed.

(** ** Throttling switched off *)

Lemma throttle_factor_off (cfg : settings) :
  _throttle cfg = None
  \/ (exists q : Q, _throttle cfg = Some (Ffin q) /\ (q == 0)%Q) ->
  throttle_factor cfg = None.
Proof.
  unfold throttle_factor. intros [->|(q & -> & Hq)]; [reflexivity|].
  cbn. apply Qeq_bool_iff in Hq. now rewrite Hq.
Qed.

Lemma send_loop_unthrottled (cfg : settings) (w : world) :
  throttle_factor cfg = None ->
  forall (msgs : list msg_ref) (num_sent : nat) (s : state),
    let s' := exec (send_loop cfg w msgs num_sent) s in
    recent_send_times s' = recent_send_times s
    /\ cached_rate_limits s' = cached_rate_limits s
    /\ clock_reads s' = clock_reads s
    /\ quota_calls s' = quota_calls s
    /\ exists evs, trace s' = evs ++ trace s
                   /\ Forall (fun e => is_throttle_event e = false) evs.
Proof.
  intros Hoff msgs. induction msgs as [|m msgs IH]; intros num_sent s; cbv zeta.
  - repeat split. exists []. split; [reflexivity|constructor].
  - assert (Heq : send_loop cfg w (m :: msgs) num_sent s
                  = match send_one cfg w m num_sent s with
                    | (Ok n', s2) => send_loop cfg w msgs n' s2
                    | (Raise e, s2) => (Raise e, s2)
                    end).
    { rewrite send_loop_cons. unfold throttle_gate. now rewrite Hoff. }
    unfold exec. rewrite Heq. clear Heq.
    pose proof (send_one_frame cfg w m num_sent s) as (_ & Hc & Ht & Hn & _ & Hq & Htr).
    unfold exec in Hc, Ht, Hn, Hq, Htr.
    destruct (send_one cfg w m num_sent s) as [[n'|e] s2]; cbn [snd] in *.
    + destruct (IH n' s2) as (H1 & H2 & H3 & H4 & evs & Hevs & Hall).
      unfold exec in H1, H2, H3, H4, Hevs. rewrite H1, H2, H3, H4.
      repeat split; auto.
      exists (evs ++ [EvSendRawEmail m]). split.
      * rewrite Hevs, Htr, <- app_assoc. reflexivity.
      * apply Forall_app. split; [exact Hall|]. now repeat constructor.
    + repeat split; auto. exists [EvSendRawEmail m]. split.
      * now rewrite Htr.
      * now repeat constructor.
Qed.

(** C8. With the throttle factor unset or zero, [send_messages] leaves the
    shared timestamp sequence and the rate-limit cache as they were, reads
    the clock not once, asks for no quota, and produces no throttle event
    (no clock reading, no quota query, no delay, no sleep), whatever the
    batch. *)
Theorem C8_throttle_disabled_is_passthrough (cfg : settings) (w : world)
    (msgs : list msg_ref) (s : state) :
  _throttle cfg = None
  \/ (exists q : Q, _throttle cfg = Some (Ffin q) /\ (q == 0)%Q) ->
  let s' := exec (send_messages cfg w msgs) s in
  recent_send_times s' = recent_send_times s
  /\ cached_rate_limits s' = cached_rate_limits s
  /\ clock_reads s' = clock_reads s
  /\ quota_calls s' = quota_calls s
  /\ exists evs, trace s' = evs ++ trace s
                 /\ Forall (fun e => is_throttle_event e = false) evs.
Proof.
  intros Hoff%throttle_factor_off. cbv zeta.
  destruct msgs as [|m rest].
  { repeat split. exists []. split; [reflexivity|constructor]. }
  assert (Hne : m :: rest <> []) by discriminate.
  unfold exec.
  destruct (open cfg w s) as [[v|e] s1] eqn:Ho;
    pose proof (open_frame _ _ _ _ _ Ho) as (Hca & Ht & _ & Hn & Hq & _ & Htr & _).
  - assert (Hopen : exists evs, trace s1 = evs ++ trace s
                                /\ Forall (fun e => is_throttle_event e = false) evs).
    { destruct Htr as [->| ->].
      - exists []. split; [reflexivity|constructor].
      - exists [EvClient]. split; [reflexivity|now repeat constructor]. }
    destruct Hopen as (evs1 & Hevs1 & Hall1).
    destruct (connection s1) as [c|] eqn:Hc.
    + rewrite (send_messages_started _ _ _ _ _ _ _ Hne Ho Hc).
      destruct (send_loop_unthrottled cfg w Hoff (m :: rest) 0 s1)
        as (Ht2 & Hca2 & Hn2 & Hq2 & evs & Hevs & Hall).
      unfold exec in Ht2, Hca2, Hn2, Hq2, Hevs.
      assert (Hs' : snd (match send_loop cfg w (m :: rest) 0 s1 with
                         | (Ok num_sent, s') => (Ok (Some num_sent), s')
                         | (Raise e, s') => (Raise e, s')
                         end) = snd (send_loop cfg w (m :: rest) 0 s1)).
      { now destruct (send_loop cfg w (m :: rest) 0 s1) as [[n|e] s2]. }
      rewrite Hs', Ht2, Hca2, Hn2, Hq2, Hevs, Hevs1. repeat split; auto.
      exists (evs ++ evs1). split; [now rewrite app_assoc|].
      apply Forall_app. auto.
    + rewrite (send_messages_no_connection _ _ _ _ _ _ Hne Ho Hc). cbn [snd].
      repeat split; auto. exists evs1. auto.
  - rewrite (send_messages_open_failed _ _ _ _ _ _ Hne Ho). cbn [snd].
    repeat split; auto. destruct Htr as [->| ->].
    + exists []. split; [reflexivity|constructor].
    + exists [EvClient]. split; [reflexivity|now repeat constructor].
Qed.

(** ** The timestamp sequence as an invariant *)

Lemma retain_after_sorted (window_start : datetime) (times : list datetime) :
  StronglySorted Z.le times -> StronglySorted Z.le (retain_after window_start times).
Proof.
  unfold retain_after. induction 1 as [|t times Hs IH Hall]; cbn; [constructor|].
  destruct (window_start <? t); [|exact IH].
  constructor; [exact IH|].
  clear IH Hs. induction Hall as [|x l Hx _ IH]; cbn; [constructor|].
  destruct (window_start <? x); [constructor|]; assumption.
Qed.

Lemma retain_after_bound (window_start bound : datetime) (times : list datetime) :
  Forall (fun t => t <= bound) times ->
  Forall (fun t => t <= bound) (retain_after window_start times).
Proof.
  unfold retain_after. induction 1 as [|t times Ht _ IH]; cbn; [constructor|].
  destruct (window_start <? t); [constructor|]; assumption.
Qed.

(** On a sequence in time order, pruning drops a prefix and nothing else. *)
Lemma retain_after_suffix (window_start : datetime) (times : list datetime) :
  StronglySorted Z.le times ->
  exists dropped : list datetime,
    times = dropped ++ retain_after window_start times
    /\ Forall (fun t => t <= window_start) dropped.
Proof.
  induction 1 as [|t times Hs IH Hall].
  - exists []. split; [reflexivity|constructor].
  - destruct (Z.ltb_spec window_start t) as [Hlt|Hge].
    + exists []. split; [|constructor]. cbn [app]. symmetry.
      apply retain_after_id. constructor; [exact Hlt|].
      eapply Forall_impl; [exact Hall|]. cbn. intros x Hx. lia.
    + destruct IH as (dropped & Heq & Hd).
      exists (t :: dropped). split.
      * unfold retain_after in *. cbn [List.filter].
        replace (window_start <? t) with false by lia.
        cbn [app]. now rewrite <- Heq.
      * constructor; assumption.
Qed.

Lemma sorted_snoc (times : list datetime) (now : datetime) :
  StronglySorted Z.le times -> Forall (fun t => t <= now) times ->
  StronglySorted Z.le (times ++ [now]).
Proof.
  induction 1 as [|t times Hs IH Hall]; intros Hb; cbn.
  - repeat constructor.
  - apply Forall_cons in Hb as (Ht & Hb). constructor; [now apply IH|].
    apply Forall_app. split; [exact Hall|]. now repeat constructor.
Qed.

Section Invariant.

Variable cfg : settings.
Variable w : world.
Hypothesis Hclock : clock_monotone w.

Lemma times_ok_frame (s s' : state) :
  recent_send_times s' = recent_send_times s ->
  (clock_reads s <= clock_reads s')%nat ->
  times_ok w s -> times_ok w s'.
Proof.
  unfold times_ok. intros -> Hn (Hs & Hb). split; [exact Hs|].
  eapply Forall_impl; [exact Hb|]. cbn. intros t Ht.
  pose proof (Hclock _ _ Hn). lia.
Qed.

(** How the throttle can end: with [now] appended to the pruned list, or
    with an exception that leaves the list as it was or pruned. *)
Lemma throttle_outcome (f : float) (s : state) :
  let now := datetime_now w (clock_reads s) in
  let kept := prune (datetime_minus now window_delta) (recent_send_times s) in
  clock_reads (exec (throttle cfg w f) s) = S (clock_reads s)
  /\ (fst (throttle cfg w f s) = Ok tt
      /\ recent_send_times (exec (throttle cfg w f) s) = kept ++ [now]
      \/ (exists e, fst (throttle cfg w f s) = Raise e)
         /\ (recent_send_times (exec (throttle cfg w f) s) = recent_send_times s
             \/ recent_send_times (exec (throttle cfg w f) s) = kept)).
Proof.
  intros now kept. unfold exec.
  destruct (throttle cfg w f s) as [r s'] eqn:Hthr.
  pose proof (throttle_frame _ _ _ _ _ _ Hthr) as (_ & _ & Hn & _).
  split; [exact Hn|]. cbn [fst snd].
  destruct (get_rate_limit cfg w (snd (call_now w s))) as [[rl|e] s1] eqn:H.
  - rewrite (throttle_after_lookup _ _ _ _ _ _ H) in Hthr. fold now kept in Hthr.
    destruct (maybe_delay now rl f kept (snd (set_recent_send_times kept s1)))
      as [[[]|e] s2] eqn:Hd; injection Hthr as <- <-.
    + left. split; reflexivity.
    + right. split; [eauto|]. right.
      now apply maybe_delay_frame in Hd as (-> & _).
  - rewrite (throttle_lookup_failed _ _ _ _ _ _ H) in Hthr. injection Hthr as <- <-.
    right. split; [eauto|]. left.
    now apply get_rate_limit_frame in H as (-> & _).
Qed.

Lemma kept_ok (s : state) :
  times_ok w s ->
  let now := datetime_now w (clock_reads s) in
  let kept := prune (datetime_minus now window_delta) (recent_send_times s) in
  StronglySorted Z.le kept /\ Forall (fun t => now - 2000000 < t <= now) kept.
Proof.
  intros (Hs & Hb) now kept. unfold kept.
  rewrite datetime_minus_window, prune_retain. split.
  - now apply retain_after_sorted.
  - pose proof (retain_after_all (now - 2000000) (recent_send_times s)) as H1.
    pose proof (retain_after_bound (now - 2000000) now _ Hb) as H2.
    revert H1 H2. generalize (retain_after (now - 2000000) (recent_send_times s)).
    induction l as [|t l IH]; intros H1 H2; [constructor|].
    apply Forall_cons in H1 as (? & ?). apply Forall_cons in H2 as (? & ?).
    constructor; [lia|auto].
Qed.

Lemma throttle_preserves (f : float) (s : state) :
  times_ok w s -> times_ok w (exec (throttle cfg w f) s).
Proof.
  intros Hok. pose proof (kept_ok s Hok) as (Hks & Hkb).
  destruct (throttle_outcome f s) as (Hn & Hcase).
  assert (Hnext : datetime_now w (clock_reads s)
                  <= datetime_now w (clock_reads (exec (throttle cfg w f) s))).
  { apply Hclock. lia. }
  assert (Hkb' : Forall (fun t => t <= datetime_now w (clock_reads s))
                   (prune (datetime_minus (datetime_now w (clock_reads s)) window_delta)
                      (recent_send_times s))).
  { eapply Forall_impl; [exact Hkb|]. cbn. intros t Ht. lia. }
  unfold times_ok.
  destruct Hcase as [(_ & ->)|(_ & [-> | ->])].
  - split; [now apply sorted_snoc|].
    apply Forall_app. split.
    + eapply Forall_impl; [exact Hkb'|]. cbn. intros t Ht. lia.
    + now repeat constructor.
  - destruct Hok as (Hs & Hb). split; [exact Hs|].
    eapply Forall_impl; [exact Hb|]. cbn. intros t Ht. lia.
  - split; [exact Hks|].
    eapply Forall_impl; [exact Hkb'|]. cbn. intros t Ht. lia.
Qed.

Lemma send_loop_preserves (msgs : list msg_ref) (num_sent : nat) (s : state) :
  times_ok w s -> times_ok w (exec (send_loop cfg w msgs num_sent) s).
Proof.
  revert num_sent s. induction msgs as [|m msgs IH]; intros num_sent s Hok.
  - exact Hok.
  - unfold exec. rewrite send_loop_cons.
    assert (Hg : times_ok w (exec (throttle_gate cfg w) s)).
    { unfold throttle_gate. destruct (throttle_factor cfg) as [f|];
        [now apply throttle_preserves | exact Hok]. }
    unfold exec in Hg.
    destruct (throttle_gate cfg w s) as [[[]|e] s1]; cbn [snd] in Hg |- *;
      [|exact Hg].
    pose proof (send_one_frame cfg w m num_sent s1) as (_ & _ & Ht & Hn & _).
    unfold exec in Ht, Hn.
    assert (H2 : times_ok w (snd (send_one cfg w m num_sent s1))).
    { apply (times_ok_frame s1); [exact Ht | lia | exact Hg]. }
    destruct (send_one cfg w m num_sent s1) as [[n'|e] s2]; cbn [snd] in H2 |- *;
      [|exact H2].
    now apply IH.
Qed.

Lemma send_messages_preserves (msgs : list msg_ref) (s : state) :
  times_ok w s -> times_ok w (exec (send_messages cfg w msgs) s).
Proof.
  intros Hok. destruct msgs as [|m rest]; [exact Hok|].
  assert (Hne : m :: rest <> []) by discriminate.
  unfold exec.
  destruct (open cfg w s) as [[v|e] s1] eqn:Ho;
    pose proof (open_frame _ _ _ _ _ Ho) as (_ & Ht & _ & Hn & _);
    assert (H1 : times_ok w s1) by (apply (times_ok_frame s); [exact Ht|lia|exact Hok]).
  - destruct (connection s1) as [c|] eqn:Hc.
    + rewrite (send_messages_started _ _ _ _ _ _ _ Hne Ho Hc).
      pose proof (send_loop_preserves (m :: rest) 0 s1 H1) as H2. unfold exec in H2.
      now destruct (send_loop cfg w (m :: rest) 0 s1) as [[n|e] s2].
    + now rewrite (send_messages_no_connection _ _ _ _ _ _ Hne Ho Hc).
  - now rewrite (send_messages_open_failed _ _ _ _ _ _ Hne Ho).
Qed.

End Invariant.

(** The module starts with an empty sequence, which is in order. *)
Lemma times_ok_initial (w : world) (s : state) :
  recent_send_times s = [] -> times_ok w s.
Proof. unfold times_ok. intros ->. split; constructor. Qed.

(** C9. With a clock that never goes back and a timestamp sequence in time
    order holding nothing later than the clock (as the empty initial
    sequence is), at the throttle's decision point every retained entry lies
    within 2.0 seconds before [now], the retained entries are in
    non-decreasing order, and pruning dropped a prefix only; whenever the
    throttle completes, with or without a delay, the sequence is the
    retained entries followed by [now], and it does complete once the rate
    limit is known (unless the list is empty under a negative threshold);
    the throttle and the whole of [send_messages] hand the ordered, bounded
    sequence on to the next decision point. *)
Theorem C9_timestamp_invariants (cfg : settings) (w : world) (f : float) (s : state) :
  clock_monotone w -> times_ok w s ->
  let now := datetime_now w (clock_reads s) in
  let kept := prune (datetime_minus now window_delta) (recent_send_times s) in
  Forall (fun t => now - 2000000 < t <= now) kept
  /\ StronglySorted Z.le kept
  /\ (exists dropped : list datetime,
        recent_send_times s = dropped ++ kept
        /\ Forall (fun t => t <= now - 2000000) dropped)
  /\ (fst (throttle cfg w f s) = Ok tt ->
      recent_send_times (exec (throttle cfg w f) s) = kept ++ [now])
  /\ (forall (rate_limit : float) (s1 : state),
        get_rate_limit cfg w (snd (call_now w s)) = (Ok rate_limit, s1) ->
        kept <> [] \/ int_gt_float 0 (threshold rate_limit f) = false ->
        fst (throttle cfg w f s) = Ok tt)
  /\ times_ok w (exec (throttle cfg w f) s)
  /\ (forall msgs : list msg_ref, times_ok w (exec (send_messages cfg w msgs) s)).
Proof.
  intros Hclock Hok now kept.
  pose proof (kept_ok w s Hok) as (Hks & Hkb). fold now kept in Hks, Hkb.
  split; [exact Hkb|]. split; [exact Hks|]. split; [|split; [|split; [|split]]].
  - destruct Hok as (Hs & _).
    destruct (retain_after_suffix (now - 2000000) _ Hs) as (dropped & Heq & Hd).
    exists dropped. unfold kept. rewrite datetime_minus_window, prune_retain. auto.
  - intros Hfst. destruct (throttle_outcome cfg w f s) as (_ & [(_ & H)|((e & He) & _)]).
    + exact H.
    + congruence.
  - intros rl s1 H Hsafe.
    rewrite (throttle_after_lookup _ _ _ _ _ _ H). fold now kept.
    destruct (int_gt_float (Z.of_nat (length kept)) (threshold rl f)) eqn:E.
    + destruct kept as [|oldest rest] eqn:Hk.
      * destruct Hsafe as [Hne|Hthr]; [congruence|].
        exfalso. change (Z.of_nat (length (@nil datetime))) with 0 in E. congruence.
      * now rewrite (maybe_delay_above _ _ _ _ _ _ E).
    + now rewrite (maybe_delay_below _ _ _ _ _ E).
  - now apply throttle_preserves.
  - intros msgs. now apply send_messages_preserves.
Qed.

(** ** Back-to-back sends at one instant *)

Section Steady.

Variable t0 : datetime.

Let w := steady_world t0.
Let cfg := throttled_cfg.

Lemma steady_threshold (k : nat) :
  int_gt_float (Z.of_nat k) (threshold (Ffin 10) (Ffin (1 # 2))) = (10 <? k)%nat.
Proof.
  assert (Hthr : threshold (Ffin 10) (Ffin (1 # 2)) = Ffin 10)
    by (vm_compute; reflexivity).
  rewrite Hthr. cbn [int_gt_float].
  destruct (Nat.ltb_spec 10 k) as [H|H].
  - apply Qltb_lt. unfold Qlt. cbn. lia.
  - apply Qltb_ge. unfold Qle. cbn. lia.
Qed.

Lemma steady_prune (k : nat) :
  prune (datetime_minus t0 window_delta) (repeat t0 k) = repeat t0 k.
Proof.
  rewrite datetime_minus_window, prune_retain. apply retain_after_id.
  induction k as [|k IH]; cbn; constructor; [lia|exact IH].
Qed.

Lemma steady_delay_value : steady_delay t0 = Ffin 2.
Proof.
  unfold steady_delay. rewrite total_seconds_diff, Z.sub_diag.
  vm_compute. reflexivity.
Qed.

Lemma steady_delay_positive : float_gt_int (steady_delay t0) 0 = true.
Proof. rewrite steady_delay_value. reflexivity. Qed.

(** One pass through the throttle with [k] timestamps retained. *)
Lemma steady_throttle (k : nat) (s : state) :
  recent_send_times s = repeat t0 k ->
  cached_rate_limits s !! access_key = Some (Ffin 10) ->
  exists s1,
    throttle cfg w (Ffin (1 # 2)) s = (Ok tt, s1)
    /\ recent_send_times s1 = repeat t0 (S k)
    /\ cached_rate_limits s1 = cached_rate_limits s
    /\ rev (trace s1)
       = rev (trace s)
         ++ EvNow t0 :: (if (10 <? k)%nat
                         then [EvDelay (steady_delay t0); EvSleep (steady_delay t0)]
                         else []).
Proof.
  intros Ht Hc.
  assert (H : get_rate_limit cfg w (snd (call_now w s)) = (Ok (Ffin 10), snd (call_now w s))).
  { now apply get_rate_limit_cached. }
  rewrite (throttle_after_lookup _ _ _ _ _ _ H).
  change (datetime_now w (clock_reads s)) with t0.
  rewrite Ht, steady_prune.
  assert (Hsnoc : repeat t0 k ++ [t0] = repeat t0 (S k)).
  { change [t0] with (repeat t0 1). rewrite <- repeat_app. f_equal. lia. }
  destruct (10 <? k)%nat eqn:E.
  - assert (Hk : repeat t0 k = t0 :: repeat t0 (Nat.pred k)).
    { apply Nat.ltb_lt in E. destruct k; [lia|reflexivity]. }
    assert (Habove : int_gt_float
                       (Z.of_nat (length (t0 :: repeat t0 (Nat.pred k))))
                       (threshold (Ffin 10) (Ffin (1 # 2))) = true).
    { rewrite <- Hk, repeat_length. now rewrite steady_threshold. }
    assert (Hmd : forall st,
               maybe_delay t0 (Ffin 10) (Ffin (1 # 2)) (repeat t0 k) st
               = (Ok tt, snd (sleep (steady_delay t0)
                                (snd (log (EvDelay (steady_delay t0)) st))))).
    { intros st. rewrite Hk, (maybe_delay_above _ _ _ _ _ _ Habove).
      fold (steady_delay t0). now rewrite steady_delay_positive. }
    rewrite Hmd.
    eexists. split; [reflexivity|]. cbn. rewrite <- !app_assoc. cbn.
    rewrite Hsnoc. auto.
  - assert (Hbelow : int_gt_float (Z.of_nat (length (repeat t0 k)))
                       (threshold (Ffin 10) (Ffin (1 # 2))) = false).
    { now rewrite repeat_length, steady_threshold. }
    rewrite (maybe_delay_below _ _ _ _ _ Hbelow).
    eexists. split; [reflexivity|]. cbn. rewrite Hsnoc. auto.
Qed.

(** The whole loop: every message is accepted, and the events are those
    of [steady_events]. *)
Lemma steady_loop (msgs : list msg_ref) (num_sent k : nat) (s : state) :
  recent_send_times s = repeat t0 k ->
  cached_rate_limits s !! access_key = Some (Ffin 10) ->
  exists s',
    send_loop cfg w msgs num_sent s = (Ok (num_sent + length msgs)%nat, s')
    /\ rev (trace s') = rev (trace s) ++ steady_events t0 k msgs.
Proof.
  revert num_sent k s. induction msgs as [|m msgs IH]; intros num_sent k s Ht Hc.
  - exists s. cbn. unfold ret. rewrite app_nil_r. split; [|reflexivity].
    f_equal. f_equal. lia.
  - destruct (steady_throttle k s Ht Hc) as (s1 & Hthr & Ht1 & Hc1 & Htr1).
    rewrite send_loop_cons.
    change (throttle_gate cfg w s) with (throttle cfg w (Ffin (1 # 2)) s). rewrite Hthr.
    assert (Ho : send_raw_email w (send_calls s1) m = Ok accepted) by reflexivity.
    rewrite (send_one_ok _ _ _ _ _ _ Ho).
    destruct (IH (S num_sent) (S k) (sent_state w m accepted s1)) as (s' & Hl & Htr).
    + exact Ht1.
    + cbn. now rewrite Hc1.
    + exists s'. rewrite Hl. split; [f_equal; f_equal; cbn; lia|].
      rewrite Htr. cbn [sent_state exec set_header call_send_raw_email snd trace].
      cbn [rev]. rewrite Htr1. cbn [steady_events]. now rewrite <- !app_assoc.
Qed.

(** A whole call on the freshly constructed backend with the rate cached. *)
Lemma steady_send_messages (m : msg_ref) (rest : list msg_ref) :
  exists s',
    send_messages cfg w (m :: rest) warm_state = (Ok (Some (S (length rest))), s')
    /\ rev (trace s') = EvClient :: steady_events t0 0 (m :: rest).
Proof.
  assert (Ho : open cfg w warm_state
               = (Ok None, snd (set_connection (Some 7%nat)
                                  (snd (call_session_client w warm_state))))).
  { now apply open_created. }
  assert (Hne : m :: rest <> []) by discriminate.
  rewrite (send_messages_started _ _ _ _ _ _ 7%nat Hne Ho eq_refl).
  destruct (steady_loop (m :: rest) 0 0
              (snd (set_connection (Some 7%nat)
                      (snd (call_session_client w warm_state)))))
    as (s' & Hl & Htr); [reflexivity|reflexivity|].
  exists s'. rewrite Hl. split; [reflexivity|]. exact Htr.
Qed.

End Steady.

(** C2 as stated fails: with rate limit 10, factor 0.5 and window 2.0,
    eleven messages sent at one instant compute no delay at all, for the
    eleventh send finds ten retained entries and ten does not exceed the
    threshold of ten. *)
Lemma C2_eleven_sends_compute_no_delay :
  let s' := exec (send_messages throttled_cfg (steady_world 0) (seq 0 11)) warm_state in
  fst (send_messages throttled_cfg (steady_world 0) (seq 0 11) warm_state)
  = Ok (Some 11%nat)
  /\ delays_of s' = []
  /\ recent_send_times s' = repeat 0 11.
Proof. vm_compute. auto. Qed.

(** C2, amended. With rate limit 10, factor 0.5 and window 2.0 (threshold
    10), messages sent back-to-back at one instant [t0] compute no delay up
    to and including the eleventh; twelve messages compute exactly one
    delay, on the twelfth send, and it is [2.0 - (t0 - oldest retained)],
    that is 2.0 seconds, the oldest retained entry being [t0] itself. *)
Theorem C2_twelfth_send_delays (t0 : datetime) :
  let w := steady_world t0 in
  let run n := send_messages throttled_cfg w (seq 0 n) warm_state in
  fst (run 11%nat) = Ok (Some 11%nat)
  /\ delays_of (snd (run 11%nat)) = []
  /\ fst (run 12%nat) = Ok (Some 12%nat)
  /\ delays_of (snd (run 12%nat))
     = [(12%nat, fsub window (total_seconds (datetime_diff t0 t0)))]
  /\ fsub window (total_seconds (datetime_diff t0 t0)) = Ffin 2.
Proof.
  cbv zeta.
  destruct (steady_send_messages t0 0%nat (seq 1 10)) as (s11 & H11 & T11).
  destruct (steady_send_messages t0 0%nat (seq 1 11)) as (s12 & H12 & T12).
  change (0%nat :: seq 1 10) with (seq 0 11) in H11, T11.
  change (0%nat :: seq 1 11) with (seq 0 12) in H12, T12.
  rewrite H11, H12. unfold delays_of. cbn [fst snd]. rewrite T11, T12.
  repeat split. apply steady_delay_value.
Qed.

(** ** The connection is never closed *)

Section NeverClosed.

Variable cfg : settings.
Variable w : world.

Lemma send_loop_keeps_connection (msgs : list msg_ref) (num_sent : nat)
    (s : state) (c : conn) :
  connection s = Some c ->
  connection (exec (send_loop cfg w msgs num_sent) s) = Some c.
Proof.
  revert num_sent s. induction msgs as [|m msgs IH]; intros num_sent s Hc.
  - exact Hc.
  - unfold exec. rewrite send_loop_cons.
    destruct (throttle_gate cfg w s) as [[[]|e] s1] eqn:Hg;
      pose proof (throttle_gate_frame _ _ _ _ _ Hg) as (_ & _ & [H|H]);
      try congruence; cbn [snd]; try congruence.
    pose proof (send_one_frame cfg w m num_sent s1) as (Hc2 & _).
    unfold exec in Hc2.
    destruct (send_one cfg w m num_sent s1) as [[n'|e] s2]; cbn [snd] in Hc2 |- *.
    + apply IH. congruence.
    + congruence.
Qed.

(** A connection that exists when [send_messages] is called exists when
    it returns or raises. *)
Lemma send_messages_keeps_connection (msgs : list msg_ref) (s : state) (c : conn) :
  connection s = Some c ->
  connection (exec (send_messages cfg w msgs) s) = Some c.
Proof.
  intros Hc. destruct msgs as [|m rest]; [exact Hc|].
  assert (Hne : m :: rest <> []) by discriminate.
  pose proof (open_connected cfg w s c Hc) as Ho.
  unfold exec. rewrite (send_messages_started _ _ _ _ _ _ _ Hne Ho Hc).
  pose proof (send_loop_keeps_connection (m :: rest) 0 s c Hc) as H.
  unfold exec in H.
  now destruct (send_loop cfg w (m :: rest) 0 s) as [[n|e] s'].
Qed.

(** And so does a connection that [send_messages] opened itself. *)
Lemma send_messages_leaves_open (msgs : list msg_ref) (s : state) (c : conn) :
  msgs <> [] ->
  connection s = None -> session_client w (client_calls s) = Ok c ->
  connection (exec (send_messages cfg w msgs) s) = Some c.
Proof.
  intros Hne Hc Hs. pose proof (open_created cfg w s c Hc Hs) as Ho.
  unfold exec. rewrite (send_messages_started _ _ _ _ _ _ c Hne Ho eq_refl).
  pose proof (send_loop_keeps_connection msgs 0 _ c
                (eq_refl : connection (snd (set_connection (Some c)
                             (snd (call_session_client w s)))) = Some c)) as H.
  unfold exec in H.
  now destruct (send_loop cfg w msgs 0 _) as [[n|e] s'].
Qed.

End NeverClosed.

(** C5, at the failing input. A freshly constructed backend sends one
    message: the call opens the connection itself, returns 1, and the
    connection is still open afterwards. The rate-limit lookup on a fresh
    backend does the same. *)
Theorem C5_connection_left_open :
  let sent := send_messages (cfg_of false None) (steady_world 0) [0%nat] initial_state in
  let looked := get_rate_limit throttled_cfg (steady_world 0) initial_state in
  connection initial_state = None
  /\ fst sent = Ok (Some 1%nat)
  /\ connection (snd sent) = Some 7%nat
  /\ fst looked = Ok (Ffin 10)
  /\ connection (snd looked) = Some 7%nat.
Proof. vm_compute. repeat split. Qed.

(** C9 as stated fails when the wall clock steps back. Two messages sent
    while [datetime.now()] reads 10 s and then 5 s: at the second decision
    point the retained entry, 10 s, lies 5 s after [now], and the sequence
    left behind, 10 s followed by 5 s, is not in time order. *)
Lemma C9_clock_steps_back :
  let after_first :=
    exec (send_messages throttled_cfg stepping_world [0%nat]) warm_state in
  let now := datetime_now stepping_world (clock_reads after_first) in
  let kept := prune (datetime_minus now window_delta) (recent_send_times after_first) in
  let after_second :=
    exec (send_messages throttled_cfg stepping_world [1%nat]) after_first in
  now = 5000000
  /\ kept = [10000000]
  /\ ~ Forall (fun t => now - 2000000 < t <= now) kept
  /\ recent_send_times after_second = [10000000; 5000000]
  /\ ~ StronglySorted Z.le (recent_send_times after_second).
Proof.
  cbv zeta.
  set (after_first :=
         exec (send_messages throttled_cfg stepping_world [0%nat]) warm_state).
  assert (Hnow : datetime_now stepping_world (clock_reads after_first) = 5000000)
    by (vm_compute; reflexivity).
  rewrite Hnow.
  assert (Hkept : prune (datetime_minus 5000000 window_delta)
                    (recent_send_times after_first) = [10000000])
    by (vm_compute; reflexivity).
  assert (Htimes : recent_send_times
                     (exec (send_messages throttled_cfg stepping_world [1%nat])
                        after_first) = [10000000; 5000000])
    by (vm_compute; reflexivity).
  rewrite Hkept, Htimes. repeat split.
  - intros H. apply Forall_cons in H as ((_ & H) & _). lia.
  - intros H. apply StronglySorted_inv in H as (_ & H).
    apply Forall_cons in H as (H & _). lia.
Qed.

(** * The theorems at concrete inputs *)

(** C1 at concrete inputs, where the float product decides. Half a second
    after the entries on record: with rate 5.0 and factor 0.3 the threshold
    is the float 3.0, three retained entries do not exceed it and nothing is
    computed; with rate 50.0 and factor 0.29 the threshold is the float
    28.999999999999996, twenty-nine retained entries exceed it and the delay
    of 1.5 s is slept. *)
Lemma C1_throttle_delay_rule_witness :
  let w := steady_world 500000 in
  threshold (Ffin 5) float_0_3 = Ffin 3
  /\ trace (snd (throttle throttled_cfg w float_0_3 (tied_state (Ffin 5) 3)))
     = [EvNow 500000]
  /\ threshold (Ffin 50) float_0_29 = Ffin (8162774324609023 # 281474976710656)
  /\ trace (snd (throttle throttled_cfg w float_0_29 (tied_state (Ffin 50) 29)))
     = [EvSleep (Ffin (3 # 2)); EvDelay (Ffin (3 # 2)); EvNow 500000].
Proof.
  cbv zeta.
  assert (H1 : get_rate_limit throttled_cfg (steady_world 500000)
                 (snd (call_now (steady_world 500000) (tied_state (Ffin 5) 3)))
               = (Ok (Ffin 5),
                  snd (call_now (steady_world 500000) (tied_state (Ffin 5) 3))))
    by reflexivity.
  assert (H2 : get_rate_limit throttled_cfg (steady_world 500000)
                 (snd (call_now (steady_world 500000) (tied_state (Ffin 50) 29)))
               = (Ok (Ffin 50),
                  snd (call_now (steady_world 500000) (tied_state (Ffin 50) 29))))
    by reflexivity.
  pose proof (C1_throttle_delay_rule throttled_cfg (steady_world 500000) float_0_3
                (tied_state (Ffin 5) 3) _ (Ffin 5) H1) as (_ & Hbelow & _).
  pose proof (C1_throttle_delay_rule throttled_cfg (steady_world 500000) float_0_29
                (tied_state (Ffin 50) 29) _ (Ffin 50) H2) as (_ & _ & Habove).
  cbv zeta in Habove, Hbelow.
  assert (Hd : fsub window (total_seconds (datetime_diff 500000 0)) = Ffin (3 # 2))
    by (vm_compute; reflexivity).
  split; [vm_compute; reflexivity|]. split.
  - destruct Hbelow as (_ & Htr); [vm_compute; reflexivity | exact Htr].
  - split; [vm_compute; reflexivity|].
    destruct (Habove 0 (repeat 0 28)) as (_ & _ & Hpos & _).
    + vm_compute. reflexivity.
    + reflexivity.
    + assert (Hgt : float_gt_int
                      (fsub window (total_seconds (datetime_diff 500000 0))) 0 = true)
        by (rewrite Hd; reflexivity).
      rewrite <- Hd. exact (Hpos Hgt).
Defined.

(** C4 at concrete inputs: no connection under fail-silently returns the
    absent result; a batch of three whose first message is rejected under
    fail-silently returns 2. *)
Lemma C4_send_messages_result_witness :
  send_messages (cfg_of true None) broken_world [0%nat; 1%nat] initial_state
  = (Ok None, exec (call_session_client broken_world) initial_state)
  /\ exists s',
       send_messages (cfg_of true None) ticking_world [0%nat; 1%nat; 2%nat] initial_state
       = (Ok (Some 2%nat), s').
Proof.
  pose proof (C4_send_messages_result (cfg_of true None) broken_world initial_state)
    as (_ & Hnone & _).
  pose proof (C4_send_messages_result (cfg_of true None) ticking_world initial_state)
    as (_ & _ & _ & Hret).
  split.
  - apply (Hnone _ (OtherError "EndpointConnectionError"));
      [discriminate | reflexivity | reflexivity | reflexivity].
  - refine (Hret [0%nat; 1%nat; 2%nat]
              (snd (open (cfg_of true None) ticking_world initial_state))
              None 7%nat _ _ _ _ _);
      [discriminate | reflexivity | reflexivity | exact I | reflexivity].
Defined.

(** C6 at concrete inputs: a cached value is returned as it is; with
    nothing cached and no connection to be had the lookup raises; with a
    provider that answers 10, 10 is stored and returned. *)
Lemma C6_get_rate_limit_witness :
  get_rate_limit throttled_cfg broken_world warm_state = (Ok (Ffin 10), warm_state)
  /\ fst (get_rate_limit throttled_cfg broken_world initial_state)
     = Raise (OtherError "EndpointConnectionError")
  /\ fst (get_rate_limit (cfg_of true (Some (Ffin (1 # 2)))) broken_world initial_state)
     = Raise NoConnection
  /\ fst (get_rate_limit throttled_cfg (steady_world 0) initial_state) = Ok (Ffin 10)
  /\ cached_rate_limits (snd (get_rate_limit throttled_cfg (steady_world 0) initial_state))
     = <[access_key := (Ffin 10)]> ∅.
Proof.
  pose proof (C6_get_rate_limit throttled_cfg broken_world warm_state) as (Hhit & _).
  pose proof (C6_get_rate_limit throttled_cfg broken_world initial_state)
    as (_ & Hfail & _).
  pose proof (C6_get_rate_limit (cfg_of true (Some (Ffin (1 # 2)))) broken_world initial_state)
    as (_ & Hsilent & _).
  pose proof (C6_get_rate_limit throttled_cfg (steady_world 0) initial_state)
    as (_ & _ & Hquery).
  split; [apply Hhit; reflexivity|].
  split; [now rewrite (Hfail (OtherError "EndpointConnectionError") eq_refl eq_refl eq_refl)|].
  split; [now rewrite (Hsilent (OtherError "EndpointConnectionError") eq_refl eq_refl eq_refl)|].
  destruct (Hquery 7%nat (Ffin 10) eq_refl (or_intror (conj eq_refl eq_refl))
              (snd (open throttled_cfg (steady_world 0) initial_state)) eq_refl eq_refl)
    as (Hres & Hcache & _).
  split; [now rewrite Hres | exact Hcache].
Defined.

(** C7 at concrete inputs: of two messages the first is rejected; under
    fail-silently the call returns 1 and the first message carries the
    error fields, without it the client error reaches the caller. *)
Lemma C7_client_error_handling_witness :
  let s0 := snd (open (cfg_of true None) ticking_world initial_state) in
  let s2 := failed_state ticking_world 0%nat rejected s0 in
  send_messages (cfg_of true None) ticking_world [0%nat; 1%nat] initial_state
  = (Ok (Some 1%nat), sent_state ticking_world 1%nat accepted s2)
  /\ headers_of s2 0%nat !! "error_code"%string = Some (PyStr "MessageRejected")
  /\ headers_of s2 0%nat !! "status"%string = Some PyNone
  /\ fst (send_messages (cfg_of false None) ticking_world [0%nat; 1%nat] initial_state)
     = Raise (ClientError rejected).
Proof.
  cbv zeta.
  pose proof (C7_client_error_handling (cfg_of true None) ticking_world
                [] 0%nat [1%nat] initial_state
                (snd (open (cfg_of true None) ticking_world initial_state))
                (snd (open (cfg_of true None) ticking_world initial_state))
                (snd (open (cfg_of true None) ticking_world initial_state))
                None 7%nat 0%nat rejected
                eq_refl eq_refl eq_refl eq_refl eq_refl) as (Hrec & _ & _ & Htwo).
  pose proof (C7_client_error_handling (cfg_of false None) ticking_world
                [] 0%nat [1%nat] initial_state
                (snd (open (cfg_of false None) ticking_world initial_state))
                (snd (open (cfg_of false None) ticking_world initial_state))
                (snd (open (cfg_of false None) ticking_world initial_state))
                None 7%nat 0%nat rejected
                eq_refl eq_refl eq_refl eq_refl eq_refl) as (_ & Hraise & _).
  cbv zeta in Hrec, Htwo, Hraise.
  split; [|split; [|split]].
  - exact (Htwo eq_refl eq_refl 1%nat _ accepted eq_refl eq_refl eq_refl).
  - apply Forall_cons in Hrec as (_ & Hrec). apply Forall_cons in Hrec as (_ & Hrec).
    apply Forall_cons in Hrec as (_ & Hrec). apply Forall_cons in Hrec as (_ & Hrec).
    apply Forall_cons in Hrec as (Hcode & _). exact Hcode.
  - apply Forall_cons in Hrec as (Hstatus & _). exact Hstatus.
  - destruct (Hraise eq_refl) as (Heq & _). exact (f_equal fst Heq).
Defined.

(** C8 at concrete inputs: with a throttle factor of zero, three messages
    go out and the two timestamps on record stay as they are. *)
Lemma C8_throttle_disabled_is_passthrough_witness :
  let s' := exec (send_messages (cfg_of false (Some (Ffin 0))) (steady_world 0)
                    [0%nat; 1%nat; 2%nat]) busy_state in
  (_throttle (cfg_of false (Some (Ffin 0))) = None
   \/ exists q : Q, _throttle (cfg_of false (Some (Ffin 0))) = Some (Ffin q)
                    /\ (q == 0)%Q)
  /\ recent_send_times s' = [0; 1000000]
  /\ clock_reads s' = 2%nat
  /\ quota_calls s' = 0%nat.
Proof.
  cbv zeta.
  assert (Hoff : _throttle (cfg_of false (Some (Ffin 0))) = None
                 \/ exists q : Q, _throttle (cfg_of false (Some (Ffin 0)))
                                  = Some (Ffin q) /\ (q == 0)%Q).
  { right. exists 0%Q. split; reflexivity. }
  pose proof (C8_throttle_disabled_is_passthrough (cfg_of false (Some (Ffin 0)))
                (steady_world 0) [0%nat; 1%nat; 2%nat] busy_state Hoff)
    as (Ht & _ & Hn & Hq & _).
  split; [exact Hoff|]. split; [exact Ht|]. split; [exact Hn | exact Hq].
Defined.

(** C9 at concrete inputs: with a clock that advances a second per reading
    and two sends on record at 0 s and 1 s, the third decision point, at
    2 s, retains the entry of 1 s only and leaves 1 s and 2 s behind. *)
Lemma C9_timestamp_invariants_witness :
  clock_monotone ticking_world
  /\ times_ok ticking_world busy_state
  /\ prune (datetime_minus 2000000 window_delta) (recent_send_times busy_state)
     = [1000000]
  /\ recent_send_times (exec (throttle throttled_cfg ticking_world (Ffin (1 # 2))) busy_state)
     = [1000000; 2000000]
  /\ times_ok ticking_world (exec (throttle throttled_cfg ticking_world (Ffin (1 # 2))) busy_state).
Proof.
  assert (Hclock : clock_monotone ticking_world).
  { intros i j Hij. cbn. lia. }
  assert (Hok : times_ok ticking_world busy_state).
  { split; cbn.
    - repeat constructor; lia.
    - repeat constructor; lia. }
  pose proof (C9_timestamp_invariants throttled_cfg ticking_world (Ffin (1 # 2)) busy_state
                Hclock Hok) as (_ & _ & _ & Happ & _ & Hnext & _).
  split; [exact Hclock|]. split; [exact Hok|]. split; [reflexivity|].
  split; [exact (Happ eq_refl) | exact Hnext].
Defined.

(** C10 at concrete inputs: the endpoint cannot be reached while the first
    of two messages is sent on a connection the caller supplied; the
    exception reaches the caller although fail-silently is set, and no
    header is written. *)
Lemma C10_other_errors_propagate_witness :
  let s2 := exec (call_send_raw_email broken_world 0%nat) connected_state in
  fail_silently (cfg_of true None) = true
  /\ send_messages (cfg_of true None) broken_world [0%nat; 1%nat] connected_state
     = (Raise (OtherError "EndpointConnectionError"), s2)
  /\ extra_headers s2 = ∅
  /\ send_calls s2 = 1%nat.
Proof.
  cbv zeta.
  pose proof (C10_other_errors_propagate (cfg_of true None) broken_world
                [] 0%nat [1%nat] connected_state connected_state connected_state
                connected_state (Some false) 3%nat 0%nat
                (OtherError "EndpointConnectionError")
                eq_refl eq_refl eq_refl eq_refl eq_refl eq_refl)
    as (Hraise & Hhdr & Hcalls & _).
  cbv zeta in Hraise, Hhdr, Hcalls.
  split; [reflexivity|]. split; [exact Hraise|]. split; [exact Hhdr | exact Hcalls].
Defined.

(** * Further properties of the backend *)

(** ** The cache is filled once *)

(** X1. A rate limit that was looked up successfully is the answer of every
    later lookup, whatever the provider would answer by then: the later
    lookup returns the same value and leaves the state, and so the record of
    remote calls, exactly as it was. *)
Theorem rate_limit_lookup_is_one_shot (cfg : settings) (w w' : world)
    (s s' : state) (r : float) :
  get_rate_limit cfg w s = (Ok r, s') ->
  get_rate_limit cfg w' s' = (Ok r, s').
Proof.
  intros H. apply get_rate_limit_cached.
  exact (get_rate_limit_stored cfg w s s' r H).
Qed.

(** At concrete inputs: a rate of 10 looked up on a fresh backend is the
    answer of the next lookup, although nothing can be reached by then. *)
Lemma rate_limit_lookup_is_one_shot_witness :
  let s' := snd (get_rate_limit throttled_cfg (steady_world 0) initial_state) in
  get_rate_limit throttled_cfg (steady_world 0) initial_state = (Ok (Ffin 10), s')
  /\ get_rate_limit throttled_cfg broken_world s' = (Ok (Ffin 10), s').
Proof.
  cbv zeta.
  assert (H : get_rate_limit throttled_cfg (steady_world 0) initial_state
              = (Ok (Ffin 10), snd (get_rate_limit throttled_cfg (steady_world 0)
                                 initial_state))) by reflexivity.
  split; [exact H|].
  exact (rate_limit_lookup_is_one_shot throttled_cfg (steady_world 0) broken_world
           initial_state _ (Ffin 10) H).
Defined.

(** ** The delay that is slept *)

Lemma float_gt_int_round (y : Q) :
  (2 ^ (-20) <= y)%Q -> float_gt_int (round y) 0 = true.
Proof.
  intros Hy. destruct (round_pos y Hy) as [-> | (q & -> & Hq)]; [reflexivity|].
  cbn [float_gt_int]. now apply Qltb_lt.
Qed.

(** What line 144 returns for an integer below two million micro-seconds
    is, as a float too, less than 2. *)
Lemma truediv_below_window (d : Z) :
  d < 2000000 ->
  truediv d (10 ^ 6) = Finf true
  \/ exists q : Q, truediv d (10 ^ 6) = Ffin q /\ (q <= 2 - 2 ^ (-20))%Q.
Proof.
  intros Hd. unfold truediv. change (10 ^ 6) with 1000000.
  destruct (Z.leb_spec d 0) as [Hneg|Hpos].
  - destruct (round_nonpos (inject_Z d / inject_Z 1000000)) as [->|(q & -> & Hq)].
    + unfold Qle, Qdiv, Qmult, Qinv, inject_Z. cbn. lia.
    + now left.
    + right. exists q. split; [reflexivity|].
      eapply Qle_trans; [exact Hq|]. discriminate.
  - destruct (round_le (inject_Z d / inject_Z 1000000) 2097151 (-20) 1)
      as (q & -> & _ & Hq); try lia.
    + unfold Qlt, Qdiv, Qmult, Qinv, inject_Z. cbn. lia.
    + apply Qle_trans with (2097151 # 1048576)%Q; [|discriminate].
      unfold Qle, Qdiv, Qmult, Qinv, inject_Z. cbn. lia.
    + reflexivity.
    + right. exists q. split; [reflexivity|].
      eapply Qle_trans; [exact Hq|]. discriminate.
Qed.

Lemma delay_positive (now oldest : datetime) :
  now - 2000000 < oldest ->
  float_gt_int (fsub window (total_seconds (datetime_diff now oldest))) 0 = true.
Proof.
  intros H. rewrite total_seconds_diff.
  destruct (truediv_below_window (now - oldest)) as [->|(q & -> & Hq)]; [lia|reflexivity|].
  cbn [fsub window]. apply float_gt_int_round.
  apply (Qplus_le_l _ _ q). ring_simplify.
  apply (Qplus_le_l _ _ (- 2 ^ (-20))). ring_simplify.
  eapply Qle_trans; [exact Hq|]. discriminate.
Qed.

Lemma delay_bounded (now oldest : datetime) :
  oldest <= now ->
  fleb (fsub window (total_seconds (datetime_diff now oldest))) window = true.
Proof.
  intros H. rewrite total_seconds_diff. unfold truediv. change (10 ^ 6) with 1000000.
  destruct (round_nonneg (inject_Z (now - oldest) / inject_Z 1000000))
    as [->|(q & -> & Hq)].
  - unfold Qle, Qdiv, Qmult, Qinv, inject_Z. cbn. lia.
  - reflexivity.
  - cbn [fsub window]. destruct (Qlt_le_dec 0 (2 - q)) as [Hpos|Hneg].
    + destruct (round_le (2 - q) 1 1 2) as (q' & -> & _ & Hq'); try lia.
      * exact Hpos.
      * apply (Qplus_le_l _ _ (q - 2)). ring_simplify. exact Hq.
      * reflexivity.
      * cbn [fleb]. apply Qle_bool_iff. exact Hq'.
    + destruct (round_nonpos (2 - q) Hneg) as [->|(q' & -> & Hq')]; [reflexivity|].
      cbn [fleb]. apply Qle_bool_iff. eapply Qle_trans; [exact Hq'|]. discriminate.
Qed.

(** X2. Whenever the throttle computes a delay it sleeps it: every
    retained entry is later than [now - 2.0 s], so the delay
    [2.0 - (now - oldest retained entry)] is positive and the test
    [delay > 0] of line 146 never fails. No assumption on the clock is
    needed. *)
Theorem throttle_delay_always_sleeps (cfg : settings) (w : world) (f : float)
    (s s1 : state) (rate_limit : float) (oldest : datetime) (rest : list datetime) :
  get_rate_limit cfg w (snd (call_now w s)) = (Ok rate_limit, s1) ->
  let now := datetime_now w (clock_reads s) in
  prune (datetime_minus now window_delta) (recent_send_times s) = oldest :: rest ->
  int_gt_float (Z.of_nat (length (oldest :: rest))) (threshold rate_limit f) = true ->
  let delay := fsub window (total_seconds (datetime_diff now oldest)) in
  float_gt_int delay 0 = true
  /\ fst (throttle cfg w f s) = Ok tt
  /\ trace (exec (throttle cfg w f) s) = EvSleep delay :: EvDelay delay :: trace s1.
Proof.
  intros H now Hk Hlt delay.
  assert (Hpos : float_gt_int delay 0 = true).
  { apply delay_positive.
    pose proof (retain_after_all (now - 2000000) (recent_send_times s)) as Hall.
    rewrite <- prune_retain, <- datetime_minus_window in Hall. fold now in Hall.
    rewrite Hk in Hall. now apply Forall_cons in Hall as (Ho & _). }
  split; [exact Hpos|].
  unfold exec. rewrite (throttle_after_lookup _ _ _ _ _ _ H). fold now.
  rewrite Hk, (maybe_delay_above _ _ _ _ _ _ Hlt). fold delay.
  rewrite Hpos. split; reflexivity.
Qed.

(** At concrete inputs: eleven entries against a threshold of ten, half a
    second after the oldest: the delay of 1.5 s is slept. *)
Lemma throttle_delay_always_sleeps_witness :
  let w := steady_world 500000 in
  let d := fsub window (total_seconds (datetime_diff 500000%Z 0%Z)) in
  float_gt_int d 0 = true
  /\ fst (throttle throttled_cfg w (Ffin (1 # 2)) crowded_state) = Ok tt
  /\ trace (exec (throttle throttled_cfg w (Ffin (1 # 2))) crowded_state)
     = EvSleep d :: EvDelay d :: trace (snd (call_now w crowded_state)).
Proof.
  cbv zeta.
  apply (throttle_delay_always_sleeps throttled_cfg (steady_world 500000) (Ffin (1 # 2))
           crowded_state (snd (call_now (steady_world 500000) crowded_state)) (Ffin 10)
           0 (repeat 0 10)).
  - reflexivity.
  - reflexivity.
  - vm_compute. reflexivity.
Defined.

(** X3. With a clock that never goes back and a timestamp sequence in time
    order holding nothing later than the clock, a delay computed after any
    batch is at most the window of 2.0 s: one message never blocks the thread
    for longer than that. *)
Theorem throttle_delay_within_window (cfg : settings) (w : world) (f : float)
    (msgs : list msg_ref) (s0 s1 : state) (rate_limit : float)
    (oldest : datetime) (rest : list datetime) :
  clock_monotone w -> times_ok w s0 ->
  let s := exec (send_messages cfg w msgs) s0 in
  let now := datetime_now w (clock_reads s) in
  get_rate_limit cfg w (snd (call_now w s)) = (Ok rate_limit, s1) ->
  prune (datetime_minus now window_delta) (recent_send_times s) = oldest :: rest ->
  int_gt_float (Z.of_nat (length (oldest :: rest))) (threshold rate_limit f) = true ->
  let delay := fsub window (total_seconds (datetime_diff now oldest)) in
  fleb delay window = true
  /\ trace (exec (throttle cfg w f) s) = EvSleep delay :: EvDelay delay :: trace s1.
Proof.
  intros Hclock Hok s now H Hk Hlt delay.
  pose proof (send_messages_preserves cfg w Hclock msgs s0 Hok) as Hs. fold s in Hs.
  pose proof (kept_ok w s Hs) as (_ & Hall). fold now in Hall. rewrite Hk in Hall.
  apply Forall_cons in Hall as ((Hlo & Hhi) & _).
  split; [now apply delay_bounded|].
  unfold exec at 1. rewrite (throttle_after_lookup _ _ _ _ _ _ H). fold now.
  rewrite Hk, (maybe_delay_above _ _ _ _ _ _ Hlt). fold delay.
  pose proof (delay_positive now oldest Hlo) as Hpos.
  fold delay in Hpos. rewrite Hpos. reflexivity.
Qed.

(** At concrete inputs: the same decision point; 1.5 s is within the
    window. *)
Lemma throttle_delay_within_window_witness :
  let w := steady_world 500000 in
  let d := fsub window (total_seconds (datetime_diff 500000%Z 0%Z)) in
  clock_monotone w
  /\ times_ok w crowded_state
  /\ fleb d window = true
  /\ trace (exec (throttle throttled_cfg w (Ffin (1 # 2))) crowded_state)
     = EvSleep d :: EvDelay d :: trace (snd (call_now w crowded_state)).
Proof.
  cbv zeta.
  assert (Hclock : clock_monotone (steady_world 500000)).
  { intros i j Hij. cbn. lia. }
  assert (Hok : times_ok (steady_world 500000) crowded_state).
  { split; cbn; repeat constructor; lia. }
  assert (Hlt : int_gt_float (Z.of_nat (length (0 :: repeat 0 10)))
                  (threshold (Ffin 10) (Ffin (1 # 2))) = true)
    by (vm_compute; reflexivity).
  split; [exact Hclock|]. split; [exact Hok|].
  exact (throttle_delay_within_window throttled_cfg (steady_world 500000) (Ffin (1 # 2))
           [] crowded_state (snd (call_now (steady_world 500000) crowded_state)) (Ffin 10)
           0 (repeat 0 10) Hclock Hok eq_refl eq_refl Hlt).
Defined.

(** ** A rate-limit lookup that fails *)

Section Abort.

Variable cfg : settings.
Variable w : world.

Lemma throttled_batch_lookup_failed (f : float) (m : msg_ref) (rest : list msg_ref)
    (s s1 s2 : state) (v : option bool) (c : conn) (e : exn) :
  throttle_factor cfg = Some f ->
  open cfg w s = (Ok v, s1) -> connection s1 = Some c ->
  get_rate_limit cfg w (snd (call_now w s1)) = (Raise e, s2) ->
  send_messages cfg w (m :: rest) s = (Raise e, s2).
Proof.
  intros Hf Ho Hc Hl.
  rewrite (send_messages_started cfg w (m :: rest) s s1 v c ltac:(discriminate) Ho Hc).
  rewrite send_loop_cons. unfold throttle_gate. rewrite Hf.
  now rewrite (throttle_lookup_failed _ _ _ _ _ _ Hl).
Qed.

End Abort.

(** X4. The rate-limit lookup of the throttle runs outside the [try] of
    lines 152-183. With throttling on and nothing cached, an exception of
    [get_send_quota] (a client error too) or a quota answer without
    [MaxSendRate] ends [send_messages] at the first message, whatever the
    fail-silently setting: nothing is sent, no header is written, and the
    timestamp sequence and the cache are left as they were. *)
Theorem quota_failure_aborts_batch (cfg : settings) (w : world) (f : float)
    (m : msg_ref) (rest : list msg_ref) (s s1 : state) (v : option bool) (c : conn) :
  throttle_factor cfg = Some f ->
  cached_rate_limits s !! ACCESS_KEY cfg = None ->
  open cfg w s = (Ok v, s1) -> connection s1 = Some c ->
  let s' := exec (call_get_send_quota w) (exec (call_now w) s1) in
  (forall e : exn,
     get_send_quota w (quota_calls s) = Raise e ->
     send_messages cfg w (m :: rest) s = (Raise e, s'))
  /\ (get_send_quota w (quota_calls s) = Ok {| MaxSendRate := None |} ->
      send_messages cfg w (m :: rest) s = (Raise (KeyError "MaxSendRate"), s'))
  /\ send_calls s' = send_calls s
  /\ extra_headers s' = extra_headers s
  /\ recent_send_times s' = recent_send_times s
  /\ cached_rate_limits s' = cached_rate_limits s.
Proof.
  intros Hf Hk Ho Hc s'.
  pose proof (open_frame _ _ _ _ _ Ho) as (Hca & Ht & Hh & _ & Hq & Hs & _).
  set (sn := snd (call_now w s1)).
  assert (Hlook : get_rate_limit cfg w sn
                  = match get_send_quota w (quota_calls s) with
                    | Ok {| MaxSendRate := Some r |} =>
                        (Ok r, snd (set_cached_rate_limit (ACCESS_KEY cfg) r s'))
                    | Ok {| MaxSendRate := None |} => (Raise (KeyError "MaxSendRate"), s')
                    | Raise e => (Raise e, s')
                    end).
  { rewrite (get_rate_limit_query cfg w sn sn (Some false) c).
    - change (quota_calls sn) with (quota_calls s1). rewrite Hq. reflexivity.
    - change (cached_rate_limits sn) with (cached_rate_limits s1). now rewrite Hca.
    - now apply (open_connected cfg w sn c).
    - exact Hc. }
  split; [|split].
  - intros e He. rewrite He in Hlook.
    exact (throttled_batch_lookup_failed cfg w f m rest s s1 s' v c e Hf Ho Hc Hlook).
  - intros He. rewrite He in Hlook.
    exact (throttled_batch_lookup_failed cfg w f m rest s s1 s' v c _ Hf Ho Hc Hlook).
  - unfold s', exec. cbn. auto.
Qed.

(** At concrete inputs: the quota query is refused with a client error;
    under fail-silently the batch of two ends with that error and no send. *)
Lemma quota_failure_aborts_batch_witness :
  let cfg := cfg_of true (Some (Ffin (1 # 2))) in
  let w := quota_denied_world in
  let s' := exec (call_get_send_quota w)
              (exec (call_now w) (exec (open cfg w) initial_state)) in
  fail_silently cfg = true
  /\ send_messages cfg w [0%nat; 1%nat] initial_state = (Raise (ClientError rejected), s')
  /\ send_calls s' = 0%nat.
Proof.
  cbv zeta.
  destruct (quota_failure_aborts_batch (cfg_of true (Some (Ffin (1 # 2)))) quota_denied_world
              (Ffin (1 # 2)) 0%nat [1%nat] initial_state
              (snd (open (cfg_of true (Some (Ffin (1 # 2)))) quota_denied_world initial_state))
              None 7%nat eq_refl eq_refl eq_refl eq_refl) as (Hraise & _ & Hs & _).
  cbv zeta in Hraise, Hs.
  split; [reflexivity|]. split.
  - exact (Hraise (ClientError rejected) eq_refl).
  - exact Hs.
Defined.

(** ** A negative threshold *)

Section Negative.

Variable cfg : settings.

Lemma negative_threshold_step (w : world) (f rl : float) (m : msg_ref)
    (rest : list msg_ref) (s : state) (c : conn) :
  throttle_factor cfg = Some f ->
  connection s = Some c ->
  cached_rate_limits s !! ACCESS_KEY cfg = Some rl ->
  int_gt_float 0 (threshold rl f) = true ->
  prune (datetime_minus (datetime_now w (clock_reads s)) window_delta)
    (recent_send_times s) = [] ->
  send_messages cfg w (m :: rest) s
  = (Raise IndexError, exec (set_recent_send_times []) (exec (call_now w) s)).
Proof.
  intros Hf Hc Hk Hneg Hp.
  rewrite (send_messages_started cfg w (m :: rest) s s (Some false) c
             ltac:(discriminate) (open_connected cfg w s c Hc) Hc).
  rewrite send_loop_cons. unfold throttle_gate. rewrite Hf.
  assert (H : get_rate_limit cfg w (snd (call_now w s)) = (Ok rl, snd (call_now w s))).
  { now apply get_rate_limit_cached. }
  rewrite (throttle_after_lookup _ _ _ _ _ _ H), Hp.
  now rewrite (maybe_delay_empty _ _ _ _ Hneg).
Qed.

End Negative.

(** X5. With a negative threshold [rate_limit * 2.0 * factor] and no
    timestamp within the window, [send_messages] raises [IndexError] at
    line 142 before the first send, under fail-silently too; it leaves the
    timestamp sequence empty, so that every later call, whatever the provider
    and the clock do, fails in the same way and sends nothing. *)
Theorem negative_threshold_never_sends (cfg : settings) (w : world) (f rl : float)
    (m : msg_ref) (rest : list msg_ref) (s : state) (c : conn) :
  throttle_factor cfg = Some f ->
  connection s = Some c ->
  cached_rate_limits s !! ACCESS_KEY cfg = Some rl ->
  int_gt_float 0 (threshold rl f) = true ->
  prune (datetime_minus (datetime_now w (clock_reads s)) window_delta)
    (recent_send_times s) = [] ->
  let s' := exec (send_messages cfg w (m :: rest)) s in
  fst (send_messages cfg w (m :: rest) s) = Raise IndexError
  /\ send_calls s' = send_calls s
  /\ extra_headers s' = extra_headers s
  /\ recent_send_times s' = []
  /\ (forall (w' : world) (m' : msg_ref) (rest' : list msg_ref),
        fst (send_messages cfg w' (m' :: rest') s') = Raise IndexError
        /\ send_calls (exec (send_messages cfg w' (m' :: rest')) s') = send_calls s).
Proof.
  intros Hf Hc Hk Hneg Hp s'. unfold s', exec.
  rewrite (negative_threshold_step cfg w f rl m rest s c Hf Hc Hk Hneg Hp).
  cbn [fst snd]. do 4 (split; [reflexivity|]).
  intros w' m' rest'.
  rewrite (negative_threshold_step cfg w' f rl m' rest'
             (exec (set_recent_send_times []) (exec (call_now w) s)) c
             Hf Hc Hk Hneg eq_refl).
  split; reflexivity.
Qed.

(** At concrete inputs: a factor of -0.5, a rate of 10, and eleven entries
    all older than the window. *)
Lemma negative_threshold_never_sends_witness :
  let cfg := cfg_of true (Some (Ffin (-1 # 2))) in
  let w := steady_world 10000000 in
  fst (send_messages cfg w [0%nat] crowded_state) = Raise IndexError
  /\ send_calls (exec (send_messages cfg w [0%nat]) crowded_state) = 0%nat.
Proof.
  cbv zeta.
  assert (Hk : cached_rate_limits crowded_state
               !! ACCESS_KEY (cfg_of true (Some (Ffin (-1 # 2)))) = Some (Ffin 10))
    by reflexivity.
  destruct (negative_threshold_never_sends (cfg_of true (Some (Ffin (-1 # 2))))
              (steady_world 10000000) (Ffin (-1 # 2)) (Ffin 10) 0%nat []
              crowded_state 3%nat
              eq_refl eq_refl Hk ltac:(vm_compute; reflexivity) eq_refl)
    as (Hraise & Hs & _).
  split; [exact Hraise | exact Hs].
Defined.

(** ** Remote calls, cache and exceptions of a run *)

Section Footprint.

Variable cfg : settings.
Variable w : world.

(** [get_rate_limit] on a backend that has its connection. *)
Lemma get_rate_limit_connected (s : state) (c : conn) :
  connection s = Some c ->
  get_rate_limit cfg w s
  = match cached_rate_limits s !! ACCESS_KEY cfg with
    | Some r => (Ok r, s)
    | None =>
        match get_send_quota w (quota_calls s) with
        | Ok {| MaxSendRate := Some r |} =>
            (Ok r, exec (set_cached_rate_limit (ACCESS_KEY cfg) r)
                     (exec (call_get_send_quota w) s))
        | Ok {| MaxSendRate := None |} =>
            (Raise (KeyError "MaxSendRate"), exec (call_get_send_quota w) s)
        | Raise e => (Raise e, exec (call_get_send_quota w) s)
        end
    end.
Proof.
  intros Hc. destruct (cached_rate_limits s !! ACCESS_KEY cfg) as [r|] eqn:Hk.
  - now apply get_rate_limit_cached.
  - rewrite (get_rate_limit_query cfg w s s (Some false) c Hk
               (open_connected cfg w s c Hc) Hc).
    destruct (get_send_quota w (quota_calls s)) as [[[r|]]|e]; reflexivity.
Qed.

Lemma open_calls (s s' : state) (r : result (option bool)) :
  open cfg w s = (r, s') ->
  (client_calls s' = client_calls s \/ client_calls s' = S (client_calls s))
  /\ (is_Some (connection s) -> client_calls s' = client_calls s)
  /\ sends_of (trace s') = sends_of (trace s)
  /\ (forall e, r = Raise e ->
        session_client w (client_calls s) = Raise e /\ fail_silently cfg = false).
Proof.
  destruct (connection s) as [c|] eqn:Hc.
  - rewrite (open_connected cfg w s c Hc). intros [= <- <-].
    repeat split; auto; discriminate.
  - destruct (session_client w (client_calls s)) as [c|e] eqn:Hs.
    + rewrite (open_created cfg w s c Hc Hs). intros [= <- <-]. cbn.
      repeat split; auto; try discriminate.
      intros H. now apply is_Some_None in H.
    + rewrite (open_failed cfg w s e Hc Hs). intros [= <- <-]. cbn.
      repeat split; auto.
      * intros H. now apply is_Some_None in H.
      * destruct (fail_silently cfg); congruence.
      * destruct (fail_silently cfg); congruence.
Qed.

Lemma maybe_delay_calls (now : datetime) (rate_limit f : float)
    (new_send_times : list datetime) (s s' : state) (r : result unit) :
  maybe_delay now rate_limit f new_send_times s = (r, s') ->
  client_calls s' = client_calls s
  /\ quota_calls s' = quota_calls s
  /\ sends_of (trace s') = sends_of (trace s)
  /\ (forall e, r = Raise e ->
        e = IndexError /\ int_gt_float 0 (threshold rate_limit f) = true).
Proof.
  unfold maybe_delay.
  destruct (int_gt_float _ _) eqn:E; [|intros [= <- <-]; repeat split; discriminate].
  destruct new_send_times as [|oldest rest].
  - intros [= <- <-]. repeat split; [congruence|exact E].
  - unfold bind, log, sleep, log, ret.
    destruct (float_gt_int _ 0); intros [= <- <-]; repeat split; discriminate.
Qed.

End Footprint.

Section Calls.

Variable cfg : settings.
Variable w : world.

Lemma calls_ok_refl (s s' : state) :
  cached_rate_limits s' = cached_rate_limits s ->
  client_calls s' = client_calls s ->
  quota_calls s' = quota_calls s ->
  calls_ok cfg s s'.
Proof.
  intros Hca Hcl Hq. unfold calls_ok, cache_kept. rewrite Hca, Hcl, Hq.
  repeat split; auto.
Qed.

(** Two steps in a row, when the first asked for no quota or left the rate
    cached. *)
Lemma calls_ok_trans (a b c : state) :
  calls_ok cfg a b ->
  quota_calls b = quota_calls a
  \/ is_Some (cached_rate_limits b !! ACCESS_KEY cfg) ->
  calls_ok cfg b c -> calls_ok cfg a c.
Proof.
  intros (Hk1 & Hc1 & Hq1 & Hs1) Hmid (Hk2 & Hc2 & Hq2 & Hs2).
  unfold calls_ok, cache_kept. repeat split.
  - intros k v H. auto.
  - congruence.
  - destruct Hmid as [Hmid|Hmid]; [lia|]. rewrite (Hs2 Hmid). exact Hq1.
  - intros (v & Hv). rewrite Hs2, Hs1; eauto.
Qed.

Lemma throttle_after_lookup_calls (f : float) (s s1 s' : state) (rate_limit : float)
    (r : result unit) :
  get_rate_limit cfg w (snd (call_now w s)) = (Ok rate_limit, s1) ->
  throttle cfg w f s = (r, s') ->
  cached_rate_limits s' = cached_rate_limits s1
  /\ client_calls s' = client_calls s1
  /\ quota_calls s' = quota_calls s1
  /\ sends_of (trace s') = sends_of (trace s1)
  /\ (forall e, r = Raise e ->
        e = IndexError /\ int_gt_float 0 (threshold rate_limit f) = true).
Proof.
  intros H. rewrite (throttle_after_lookup _ _ _ _ _ _ H).
  destruct (maybe_delay _ _ _ _ _) as [[[]|e] s2] eqn:Hd;
    pose proof (maybe_delay_frame _ _ _ _ _ _ _ Hd) as (_ & Hca & _);
    pose proof (maybe_delay_calls _ _ _ _ _ _ _ Hd) as (Hcl & Hq & Htr & He);
    intros [= <- <-]; cbn in *; do 4 (split; [auto|]); intros e' Hr.
  - discriminate Hr.
  - injection Hr as <-. now apply He.
Qed.

Lemma throttle_footprint (f : float) (s s' : state) (c : conn) (r : result unit) :
  connection s = Some c ->
  throttle cfg w f s = (r, s') ->
  calls_ok cfg s s'
  /\ sends_of (trace s') = sends_of (trace s)
  /\ (r = Ok tt -> is_Some (cached_rate_limits s' !! ACCESS_KEY cfg))
  /\ (forall e, r = Raise e ->
        (exists n, get_send_quota w n = Raise e)
        \/ e = KeyError "MaxSendRate"
        \/ e = IndexError
           /\ exists rl, cached_rate_limits s' !! ACCESS_KEY cfg = Some rl
                         /\ int_gt_float 0 (threshold rl f) = true).
Proof.
  intros Hc Hthr.
  pose proof (get_rate_limit_connected cfg w (snd (call_now w s)) c Hc) as Hl.
  change (cached_rate_limits (snd (call_now w s))) with (cached_rate_limits s) in Hl.
  change (quota_calls (snd (call_now w s))) with (quota_calls s) in Hl.
  destruct (cached_rate_limits s !! ACCESS_KEY cfg) as [rl|] eqn:Hk.
  - destruct (throttle_after_lookup_calls f s _ s' rl r Hl Hthr)
      as (Hca & Hcl & Hq & Htr & He).
    cbn in Hca, Hcl, Hq, Htr. split; [|split; [|split]].
    + now apply calls_ok_refl.
    + exact Htr.
    + intros _. rewrite Hca, Hk. eauto.
    + intros e Hr. right. right. destruct (He e Hr) as (-> & Hneg).
      split; [reflexivity|]. exists rl. now rewrite Hca, Hk.
  - assert (Hnot : forall n : nat,
               is_Some (cached_rate_limits s !! ACCESS_KEY cfg) -> n = quota_calls s).
    { rewrite Hk. intros n H. now apply is_Some_None in H. }
    destruct (get_send_quota w (quota_calls s)) as [[[rl|]]|e0] eqn:Hq0.
    + destruct (throttle_after_lookup_calls f s _ s' rl r Hl Hthr)
        as (Hca & Hcl & Hq & Htr & He).
      cbn in Hca, Hcl, Hq, Htr.
      assert (Hstored : cached_rate_limits s' !! ACCESS_KEY cfg = Some rl).
      { rewrite Hca. apply lookup_insert_eq. }
      split; [|split; [|split]].
      * split; [|split; [|split]]; [|exact Hcl|lia|apply Hnot].
        intros k v Hkv. rewrite Hca. rewrite lookup_insert_ne; [exact Hkv|].
        intros <-. congruence.
      * exact Htr.
      * intros _. rewrite Hstored. eauto.
      * intros e Hr. right. right. destruct (He e Hr) as (-> & Hneg).
        split; [reflexivity|]. exists rl. auto.
    + rewrite (throttle_lookup_failed _ _ _ _ _ _ Hl) in Hthr.
      injection Hthr as <- <-. split; [|split; [|split]].
      * split; [|split; [|split]]; [|reflexivity|cbn; lia|apply Hnot].
        intros k v Hkv. exact Hkv.
      * reflexivity.
      * discriminate.
      * intros e [= <-]. auto.
    + rewrite (throttle_lookup_failed _ _ _ _ _ _ Hl) in Hthr.
      injection Hthr as <- <-. split; [|split; [|split]].
      * split; [|split; [|split]]; [|reflexivity|cbn; lia|apply Hnot].
        intros k v Hkv. exact Hkv.
      * reflexivity.
      * discriminate.
      * intros e [= <-]. eauto.
Qed.

End Calls.

Section Loop.

Variable cfg : settings.
Variable w : world.

Lemma record_error_client_calls (m : msg_ref) (err : gmap string pyval)
    (keys : list string) (s : state) :
  client_calls (exec (record_error m err keys) s) = client_calls s.
Proof.
  revert s. induction keys as [|key keys IH]; intros s; [reflexivity|].
  now rewrite record_error_cons, IH.
Qed.

Lemma send_one_calls (message : msg_ref) (num_sent : nat) (s : state) :
  client_calls (exec (send_one cfg w message num_sent) s) = client_calls s
  /\ forall e, fst (send_one cfg w message num_sent s) = Raise e ->
       send_raw_email w (send_calls s) message = Raise e
       /\ (is_client_error e = true -> fail_silently cfg = false).
Proof.
  unfold exec.
  destruct (send_raw_email w (send_calls s) message) as [resp|e] eqn:H.
  - rewrite (send_one_ok _ _ _ _ _ _ H). split; [reflexivity|]. discriminate.
  - destruct (is_client_error e) eqn:He.
    + destruct e as [err| | | |]; try discriminate.
      rewrite (send_one_client_error _ _ _ _ _ _ H). cbn [fst snd]. split.
      * unfold failed_state. now rewrite record_error_client_calls.
      * destruct (fail_silently cfg); [discriminate|].
        intros e [= <-]. auto.
    + rewrite (send_one_other_error _ _ _ _ _ _ H He). cbn [fst snd].
      split; [reflexivity|]. intros e' [= <-]. split; [reflexivity|congruence].
Qed.

Lemma throttle_gate_footprint (s s' : state) (c : conn) (r : result unit) :
  connection s = Some c ->
  throttle_gate cfg w s = (r, s') ->
  connection s' = Some c
  /\ calls_ok cfg s s'
  /\ send_calls s' = send_calls s
  /\ sends_of (trace s') = sends_of (trace s)
  /\ (r = Ok tt ->
      quota_calls s' = quota_calls s
      \/ is_Some (cached_rate_limits s' !! ACCESS_KEY cfg))
  /\ (forall e, r = Raise e -> raise_origin cfg w s' e).
Proof.
  intros Hc Hg.
  pose proof (throttle_gate_frame _ _ _ _ _ Hg) as (_ & Hs & Hconn).
  assert (Hc' : connection s' = Some c).
  { destruct Hconn as [H|H]; congruence. }
  split; [exact Hc'|]. revert Hg. unfold throttle_gate.
  destruct (throttle_factor cfg) as [f|] eqn:Hf.
  - intros Hthr.
    destruct (throttle_footprint cfg w f s s' c r Hc Hthr) as (Hcalls & Htr & Hok & He).
    split; [exact Hcalls|]. split; [exact Hs|]. split; [exact Htr|]. split.
    + intros Hr. right. auto.
    + intros e Hr. unfold raise_origin.
      destruct (He e Hr) as [H|[H|(H & rl & Hk & Hneg)]].
      * right. left. exact H.
      * do 2 right. left. exact H.
      * do 4 right. split; [exact H|]. exists f, rl. auto.
  - intros [= <- <-]. split; [now apply calls_ok_refl|].
    split; [reflexivity|]. split; [reflexivity|]. split; [auto|discriminate].
Qed.

(** The loop on a backend that has its connection. *)
Lemma send_loop_calls (msgs : list msg_ref) (num_sent : nat) (s : state) (c : conn) :
  connection s = Some c ->
  calls_ok cfg s (exec (send_loop cfg w msgs num_sent) s).
Proof.
  revert num_sent s. induction msgs as [|m msgs IH]; intros num_sent s Hc.
  - now apply calls_ok_refl.
  - unfold exec. rewrite send_loop_cons.
    destruct (throttle_gate cfg w s) as [[[]|e] s1] eqn:Hg;
      destruct (throttle_gate_footprint s s1 c _ Hc Hg) as (Hc1 & Hcalls & _ & _ & Hmid & _);
      [|exact Hcalls].
    pose proof (send_one_frame cfg w m num_sent s1) as (Hc2 & Hca2 & _ & _ & _ & Hq2 & _).
    pose proof (send_one_calls m num_sent s1) as (Hcl2 & _).
    unfold exec in Hc2, Hca2, Hq2, Hcl2.
    assert (H12 : calls_ok cfg s (snd (send_one cfg w m num_sent s1))).
    { apply (calls_ok_trans cfg s s1); [exact Hcalls | auto |].
      now apply calls_ok_refl. }
    destruct (send_one cfg w m num_sent s1) as [[n'|e] s2]; cbn [snd] in *;
      [|exact H12].
    apply (calls_ok_trans cfg s s2); [exact H12| |].
    + destruct (Hmid eq_refl) as [H|H]; [left; congruence|right].
      now rewrite Hca2.
    + apply (IH n' s2). congruence.
Qed.

Lemma send_loop_sends (msgs : list msg_ref) (num_sent : nat) (s : state) (c : conn) :
  connection s = Some c ->
  exists pre post : list msg_ref,
    msgs = pre ++ post
    /\ sends_of (trace (exec (send_loop cfg w msgs num_sent) s))
       = rev pre ++ sends_of (trace s)
    /\ send_calls (exec (send_loop cfg w msgs num_sent) s)
       = (send_calls s + length pre)%nat
    /\ (forall n, fst (send_loop cfg w msgs num_sent s) = Ok n -> post = []).
Proof.
  revert num_sent s. induction msgs as [|m msgs IH]; intros num_sent s Hc.
  - exists [], []. cbn. repeat split; auto.
  - unfold exec. rewrite send_loop_cons.
    destruct (throttle_gate cfg w s) as [[[]|e] s1] eqn:Hg;
      destruct (throttle_gate_footprint s s1 c _ Hc Hg) as (Hc1 & _ & Hs1 & Htr1 & _).
    + pose proof (send_one_frame cfg w m num_sent s1)
        as (Hc2 & _ & _ & _ & Hs2 & _ & Htr2).
      unfold exec in Hc2, Hs2, Htr2.
      destruct (send_one cfg w m num_sent s1) as [[n'|e] s2]; cbn [snd] in *.
      * destruct (IH n' s2 ltac:(congruence)) as (pre & post & -> & Htr & Hs & Hok).
        exists (m :: pre), post. unfold exec in Htr, Hs.
        split; [reflexivity|]. split; [|split; [|exact Hok]].
        -- rewrite Htr, Htr2. cbn [sends_of rev]. rewrite Htr1, <- app_assoc.
           reflexivity.
        -- rewrite Hs, Hs2, Hs1. cbn [length]. lia.
      * exists [m], msgs. split; [reflexivity|]. cbn [fst snd].
        split; [|split; [|discriminate]].
        -- rewrite Htr2. cbn [sends_of rev app]. now rewrite Htr1.
        -- rewrite Hs2, Hs1. cbn [length]. lia.
    + exists [], (m :: msgs). cbn [fst snd]. split; [reflexivity|].
      split; [exact Htr1|]. split; [cbn [length]; lia|discriminate].
Qed.

Lemma send_loop_raises (msgs : list msg_ref) (num_sent : nat) (s s' : state)
    (c : conn) (e : exn) :
  connection s = Some c ->
  send_loop cfg w msgs num_sent s = (Raise e, s') ->
  raise_origin cfg w s' e.
Proof.
  revert num_sent s. induction msgs as [|m msgs IH]; intros num_sent s Hc.
  - discriminate.
  - rewrite send_loop_cons.
    destruct (throttle_gate cfg w s) as [[[]|e1] s1] eqn:Hg;
      destruct (throttle_gate_footprint s s1 c _ Hc Hg) as (Hc1 & _ & _ & _ & _ & He1).
    + pose proof (send_one_frame cfg w m num_sent s1) as (Hc2 & _).
      pose proof (send_one_calls m num_sent s1) as (_ & He2).
      unfold exec in Hc2.
      destruct (send_one cfg w m num_sent s1) as [[n'|e2] s2]; cbn [fst snd] in *.
      * apply IH. congruence.
      * intros [= <- <-]. destruct (He2 e2 eq_refl) as (H & Hfs).
        unfold raise_origin. do 3 right. left. eauto.
    + intros [= <- <-]. now apply He1.
Qed.

Lemma send_loop_stamps (f : float) (msgs : list msg_ref) (num_sent n : nat)
    (s s' : state) :
  throttle_factor cfg = Some f ->
  send_loop cfg w msgs num_sent s = (Ok n, s') ->
  clock_reads s' = (clock_reads s + length msgs)%nat
  /\ recent_send_times s'
     = fold_left stamp (readings w (clock_reads s) (length msgs)) (recent_send_times s).
Proof.
  intros Hf. revert num_sent s. induction msgs as [|m msgs IH]; intros num_sent s.
  - cbn. intros [= <- <-]. split; [lia|reflexivity].
  - rewrite send_loop_cons. unfold throttle_gate. rewrite Hf.
    destruct (throttle_outcome cfg w f s) as (Hn1 & Hcase). unfold exec in Hn1, Hcase.
    destruct (throttle cfg w f s) as [[[]|e] s1]; [|discriminate].
    cbn [fst snd] in Hn1, Hcase.
    destruct Hcase as [(_ & Ht1)|((e & He) & _)]; [|discriminate].
    pose proof (send_one_frame cfg w m num_sent s1) as (_ & _ & Ht2 & Hn2 & _).
    unfold exec in Ht2, Hn2.
    destruct (send_one cfg w m num_sent s1) as [[n'|e] s2]; [|discriminate].
    cbn [snd] in Ht2, Hn2. intros H. apply IH in H as (-> & ->).
    rewrite Hn2, Hn1, Ht2, Ht1. split; [cbn [length]; lia|]. reflexivity.
Qed.

End Loop.

Section Batch.

Variable cfg : settings.
Variable w : world.

Lemma get_rate_limit_cache_kept (s : state) :
  cache_kept s (exec (get_rate_limit cfg w) s).
Proof.
  unfold exec, cache_kept. intros k v Hkv.
  destruct (cached_rate_limits s !! ACCESS_KEY cfg) as [r0|] eqn:Hk.
  - now rewrite (get_rate_limit_cached cfg w s r0 Hk).
  - destruct (open cfg w s) as [[v0|e] s1] eqn:Ho;
      pose proof (open_frame _ _ _ _ _ Ho) as (Hca & _).
    + destruct (connection s1) as [c|] eqn:Hc1.
      * rewrite (get_rate_limit_query cfg w s s1 v0 c Hk Ho Hc1).
        destruct (get_send_quota w (quota_calls s1)) as [[[r1|]]|e]; cbn;
          rewrite ?Hca; auto.
        rewrite lookup_insert_ne; [exact Hkv|]. intros <-. congruence.
      * unfold get_rate_limit, bind at 1, get at 1. rewrite Hk.
        unfold bind at 1. rewrite Ho. unfold bind at 1, get at 1. rewrite Hc1.
        cbn. now rewrite Hca.
    + unfold get_rate_limit, bind at 1, get at 1. rewrite Hk.
      unfold bind at 1. rewrite Ho. cbn. now rewrite Hca.
Qed.

Lemma send_messages_calls (msgs : list msg_ref) (s : state) :
  let s' := exec (send_messages cfg w msgs) s in
  cache_kept s s'
  /\ (client_calls s' = client_calls s \/ client_calls s' = S (client_calls s))
  /\ (is_Some (connection s) -> client_calls s' = client_calls s)
  /\ (quota_calls s' <= S (quota_calls s))%nat
  /\ (is_Some (cached_rate_limits s !! ACCESS_KEY cfg) -> quota_calls s' = quota_calls s).
Proof.
  cbv zeta. destruct msgs as [|m rest].
  { unfold cache_kept. cbn. repeat split; auto. }
  assert (Hne : m :: rest <> []) by discriminate.
  unfold exec.
  destruct (open cfg w s) as [[v|e] s1] eqn:Ho;
    pose proof (open_frame _ _ _ _ _ Ho) as (Hca & _ & _ & _ & Hq & _);
    pose proof (open_calls _ _ _ _ _ Ho) as (Hcl & Hcl' & _).
  - destruct (connection s1) as [c|] eqn:Hc.
    + rewrite (send_messages_started _ _ _ _ _ _ _ Hne Ho Hc).
      destruct (send_loop_calls cfg w (m :: rest) 0 s1 c Hc) as (Hk & Hc2 & Hq2 & Hs2).
      unfold exec in Hk, Hc2, Hq2, Hs2.
      assert (Hs' : snd (match send_loop cfg w (m :: rest) 0 s1 with
                         | (Ok num_sent, s') => (Ok (Some num_sent), s')
                         | (Raise e, s') => (Raise e, s')
                         end) = snd (send_loop cfg w (m :: rest) 0 s1)).
      { now destruct (send_loop cfg w (m :: rest) 0 s1) as [[n|e] s2]. }
      rewrite Hs', Hc2. unfold cache_kept in Hk. rewrite Hca, Hq in *.
      split; [exact Hk|]. split; [exact Hcl|]. split; [exact Hcl'|].
      split; [exact Hq2 | exact Hs2].
    + rewrite (send_messages_no_connection _ _ _ _ _ _ Hne Ho Hc). cbn [snd].
      unfold cache_kept. rewrite Hca, Hq. repeat split; auto.
  - rewrite (send_messages_open_failed _ _ _ _ _ _ Hne Ho). cbn [snd].
    unfold cache_kept. rewrite Hca, Hq. repeat split; auto.
Qed.

End Batch.

(** X6. Whatever the size of the batch, one call of [send_messages] creates
    at most one client and asks for the sending quota at most once; it
    creates no client when the backend has a connection, and asks for no
    quota when the rate limit of the credential is cached. *)
Theorem send_messages_remote_calls (cfg : settings) (w : world)
    (msgs : list msg_ref) (s : state) :
  let s' := exec (send_messages cfg w msgs) s in
  (client_calls s' <= S (client_calls s))%nat
  /\ (quota_calls s' <= S (quota_calls s))%nat
  /\ (is_Some (connection s) -> client_calls s' = client_calls s)
  /\ (is_Some (cached_rate_limits s !! ACCESS_KEY cfg) ->
      quota_calls s' = quota_calls s).
Proof.
  cbv zeta.
  destruct (send_messages_calls cfg w msgs s) as (_ & Hcl & Hconn & Hq & Hcached).
  split; [destruct Hcl as [-> | ->]; lia|]. auto.
Qed.

(** At concrete inputs: three messages on a backend with its connection and
    the rate cached: three sends, no client created, no quota asked. *)
Lemma send_messages_remote_calls_witness :
  let s' := exec (send_messages throttled_cfg (steady_world 0) [0%nat; 1%nat; 2%nat])
              crowded_state in
  client_calls s' = 0%nat /\ quota_calls s' = 0%nat /\ send_calls s' = 3%nat.
Proof.
  cbv zeta.
  destruct (send_messages_remote_calls throttled_cfg (steady_world 0)
              [0%nat; 1%nat; 2%nat] crowded_state) as (_ & _ & Hcl & Hq).
  split; [|split].
  - apply Hcl. exists 3%nat. reflexivity.
  - apply Hq. exists (Ffin 10). reflexivity.
  - reflexivity.
Defined.

(** X7. An entry of the rate-limit cache is never replaced and never
    removed: after [get_rate_limit] and after [send_messages], every
    credential that had a cached rate still has it, with the same value. A
    change of the quota at the provider is not picked up. *)
Theorem cached_rate_is_never_replaced (cfg : settings) (w : world)
    (msgs : list msg_ref) (s : state) (k : option string) (v : float) :
  cached_rate_limits s !! k = Some v ->
  cached_rate_limits (exec (get_rate_limit cfg w) s) !! k = Some v
  /\ cached_rate_limits (exec (send_messages cfg w msgs) s) !! k = Some v.
Proof.
  intros H. split.
  - now apply get_rate_limit_cache_kept.
  - now apply send_messages_calls.
Qed.

(** At concrete inputs: the cached rate of 10 outlives a batch sent while
    the provider refuses the quota query. *)
Lemma cached_rate_is_never_replaced_witness :
  cached_rate_limits crowded_state !! access_key = Some (Ffin 10)
  /\ cached_rate_limits
       (exec (send_messages throttled_cfg quota_denied_world [0%nat; 1%nat])
          crowded_state) !! access_key = Some (Ffin 10).
Proof.
  assert (H : cached_rate_limits crowded_state !! access_key = Some (Ffin 10))
    by reflexivity.
  split; [exact H|].
  exact (proj2 (cached_rate_is_never_replaced throttled_cfg quota_denied_world
                  [0%nat; 1%nat] crowded_state access_key (Ffin 10) H)).
Defined.

(** X8. The messages handed to the provider by one call of
    [send_messages] are a prefix of the batch, each handed over once, in the
    order of the batch; when the call returns a count, the prefix is the
    whole batch. *)
Theorem sends_follow_batch_order (cfg : settings) (w : world)
    (msgs : list msg_ref) (s : state) :
  let s' := exec (send_messages cfg w msgs) s in
  exists pre post : list msg_ref,
    msgs = pre ++ post
    /\ sends_of (trace s') = rev pre ++ sends_of (trace s)
    /\ send_calls s' = (send_calls s + length pre)%nat
    /\ (forall n : nat, fst (send_messages cfg w msgs s) = Ok (Some n) -> post = []).
Proof.
  cbv zeta.
  destruct msgs as [|m rest].
  { exists [], []. cbn. repeat split; auto. }
  assert (Hne : m :: rest <> []) by discriminate.
  unfold exec.
  destruct (open cfg w s) as [[v|e] s1] eqn:Ho;
    pose proof (open_frame _ _ _ _ _ Ho) as (_ & _ & _ & _ & _ & Hs & _);
    pose proof (open_calls _ _ _ _ _ Ho) as (_ & _ & Htr & _).
  - destruct (connection s1) as [c|] eqn:Hc.
    + rewrite (send_messages_started _ _ _ _ _ _ _ Hne Ho Hc).
      destruct (send_loop_sends cfg w (m :: rest) 0 s1 c Hc)
        as (pre & post & Heq & Htr2 & Hs2 & Hok).
      unfold exec in Htr2, Hs2. exists pre, post. split; [exact Heq|].
      destruct (send_loop cfg w (m :: rest) 0 s1) as [[n|e] s2]; cbn [fst snd] in *.
      * rewrite Htr2, Hs2, Htr, Hs. repeat split; auto. intros n' _. now apply (Hok n).
      * rewrite Htr2, Hs2, Htr, Hs. repeat split; auto. discriminate.
    + rewrite (send_messages_no_connection _ _ _ _ _ _ Hne Ho Hc). cbn [fst snd].
      exists [], (m :: rest). rewrite Htr, Hs. cbn [length rev app].
      repeat split; auto; discriminate.
  - rewrite (send_messages_open_failed _ _ _ _ _ _ Hne Ho). cbn [fst snd].
    exists [], (m :: rest). rewrite Htr, Hs. cbn [length rev app].
    repeat split; auto; discriminate.
Qed.

(** At concrete inputs: messages 4, 5 and 6 are handed over in that
    order (the trace is newest first). *)
Lemma sends_follow_batch_order_witness :
  let s' := exec (send_messages (cfg_of false None) (steady_world 0)
                    [4%nat; 5%nat; 6%nat]) connected_state in
  sends_of (trace s') = [6%nat; 5%nat; 4%nat] /\ send_calls s' = 3%nat.
Proof.
  cbv zeta.
  pose proof (sends_follow_batch_order (cfg_of false None) (steady_world 0)
                [4%nat; 5%nat; 6%nat] connected_state) as H.
  cbv zeta in H. destruct H as (pre & post & Heq & Htr & Hs & Hok).
  pose proof (Hok 3%nat eq_refl) as Hpost. subst post.
  rewrite app_nil_r in Heq. subst pre. split; [exact Htr | exact Hs].
Defined.

(** X9. The exception of line 196, no connection for the rate-limit
    lookup, never leaves [send_messages]: whenever none of
    [session.client], [get_send_quota] and [send_raw_email] raises that
    exception itself, [send_messages] does not end with it, whatever the
    settings, the batch and the state it starts in. Inside
    [send_messages] the lookup always finds the connection that line 99
    has checked. *)
Theorem send_messages_never_lacks_connection (cfg : settings) (w : world)
    (msgs : list msg_ref) (s : state) :
  (forall n : nat, session_client w n <> Raise NoConnection) ->
  (forall n : nat, get_send_quota w n <> Raise NoConnection) ->
  (forall (n : nat) (m : msg_ref), send_raw_email w n m <> Raise NoConnection) ->
  fst (send_messages cfg w msgs s) <> Raise NoConnection.
Proof.
  intros Hclient Hquota Hsend.
  destruct msgs as [|m rest]; [discriminate|].
  assert (Hne : m :: rest <> []) by discriminate.
  destruct (open cfg w s) as [[v|e0] s1] eqn:Ho.
  - destruct (connection s1) as [c|] eqn:Hc.
    + rewrite (send_messages_started _ _ _ _ _ _ _ Hne Ho Hc).
      destruct (send_loop cfg w (m :: rest) 0 s1) as [[n|e1] s2] eqn:Hl; [discriminate|].
      cbn [fst]. intros [= ->].
      destruct (send_loop_raises cfg w _ _ _ _ c _ Hc Hl)
        as [(n & Hn & _)|[(n & Hn)|[He|[(n & m' & Hn & _)|(He & _)]]]].
      * exact (Hclient n Hn).
      * exact (Hquota n Hn).
      * discriminate He.
      * exact (Hsend n m' Hn).
      * discriminate He.
    + now rewrite (send_messages_no_connection _ _ _ _ _ _ Hne Ho Hc).
  - rewrite (send_messages_open_failed _ _ _ _ _ _ Hne Ho). cbn [fst]. intros [= ->].
    destruct (open_calls _ _ _ _ _ Ho) as (_ & _ & _ & He).
    exact (Hclient _ (proj1 (He _ eq_refl))).
Qed.

(** At concrete inputs: with fail-silently set and no client to be had,
    the lookup on its own ends with that exception, and [send_messages]
    on the same backend returns without it; on a held connection a
    failing [get_send_quota] ends [send_messages] with its own error. *)
Lemma send_messages_never_lacks_connection_witness :
  let cfg := cfg_of true (Some (Ffin (1 # 2))) in
  fst (get_rate_limit cfg broken_world initial_state) = Raise NoConnection
  /\ fst (send_messages cfg broken_world [0%nat; 1%nat] initial_state) <> Raise NoConnection
  /\ fst (send_messages cfg broken_world [0%nat; 1%nat] connected_state) <> Raise NoConnection.
Proof.
  cbv zeta.
  assert (Hclient : forall n : nat, session_client broken_world n <> Raise NoConnection)
    by (intros n; discriminate).
  assert (Hquota : forall n : nat, get_send_quota broken_world n <> Raise NoConnection)
    by (intros n; discriminate).
  assert (Hsend : forall (n : nat) (m : msg_ref),
             send_raw_email broken_world n m <> Raise NoConnection)
    by (intros n m; discriminate).
  split; [reflexivity|].
  split.
  - exact (send_messages_never_lacks_connection _ _ _ _ Hclient Hquota Hsend).
  - exact (send_messages_never_lacks_connection _ _ _ _ Hclient Hquota Hsend).
Defined.

(** X10. With throttling on, a call of [send_messages] that returns a
    count has read the clock once per message, and the timestamp sequence it
    leaves is the one it found, pruned at and extended by each reading in
    turn. The sequence depends on the readings only: a send that was
    rejected under fail-silently is on record like one that was accepted,
    and the time slept is not. *)
Theorem timestamps_follow_clock (cfg : settings) (w : world) (f : float)
    (msgs : list msg_ref) (s s' : state) (n : nat) :
  throttle_factor cfg = Some f ->
  send_messages cfg w msgs s = (Ok (Some n), s') ->
  clock_reads s' = (clock_reads s + length msgs)%nat
  /\ recent_send_times s'
     = fold_left stamp (readings w (clock_reads s) (length msgs)) (recent_send_times s).
Proof.
  intros Hf. destruct msgs as [|m rest]; [discriminate|].
  assert (Hne : m :: rest <> []) by discriminate.
  destruct (open cfg w s) as [[v|e0] s1] eqn:Ho.
  - pose proof (open_frame _ _ _ _ _ Ho) as (_ & Ht & _ & Hn & _).
    destruct (connection s1) as [c|] eqn:Hc.
    + rewrite (send_messages_started _ _ _ _ _ _ _ Hne Ho Hc).
      destruct (send_loop cfg w (m :: rest) 0 s1) as [[k|e1] s2] eqn:Hl; [|discriminate].
      intros [= <- <-]. rewrite <- Ht, <- Hn.
      exact (send_loop_stamps cfg w f _ _ _ _ _ Hf Hl).
    + now rewrite (send_messages_no_connection _ _ _ _ _ _ Hne Ho Hc).
  - now rewrite (send_messages_open_failed _ _ _ _ _ _ Hne Ho).
Qed.

(** At concrete inputs: of two messages sent at 0 s and 1 s the first is
    rejected under fail-silently; both instants are on record. *)
Lemma timestamps_follow_clock_witness :
  let cfg := cfg_of true (Some (Ffin (1 # 2))) in
  let s' := exec (send_messages cfg ticking_world [0%nat; 1%nat]) warm_state in
  fst (send_messages cfg ticking_world [0%nat; 1%nat] warm_state) = Ok (Some 1%nat)
  /\ clock_reads s' = 2%nat
  /\ recent_send_times s' = [0; 1000000].
Proof.
  cbv zeta.
  assert (Hfst : fst (send_messages (cfg_of true (Some (Ffin (1 # 2)))) ticking_world
                        [0%nat; 1%nat] warm_state) = Ok (Some 1%nat))
    by (vm_compute; reflexivity).
  split; [exact Hfst|].
  apply (timestamps_follow_clock (cfg_of true (Some (Ffin (1 # 2)))) ticking_world (Ffin (1 # 2))
           [0%nat; 1%nat] warm_state _ 1%nat eq_refl).
  unfold exec. rewrite <- Hfst. apply surjective_pairing.
Defined.

(** ** What a send writes on the messages *)

Section Headers.

Variable cfg : settings.
Variable w : world.

Lemma sent_state_lookup (m : msg_ref) (resp : response) (s : state) (k : string) :
  headers_of (sent_state w m resp s) m !! k
  = if decide (k = "request_id"%string) then Some (PyStr (RequestId resp))
    else if decide (k = "message_id"%string) then Some (PyStr (MessageId resp))
    else if decide (k = "status"%string) then Some (PyInt (HTTPStatusCode resp))
    else headers_of s m !! k.
Proof.
  unfold sent_state. rewrite !headers_of_set_header.
  destruct (decide (m = m)) as [_|]; [|congruence].
  change (headers_of (exec (call_send_raw_email w m) s) m) with (headers_of s m).
  destruct (decide (k = "request_id"%string)) as [->|H1];
    [now rewrite lookup_insert_eq|].
  rewrite lookup_insert_ne by congruence.
  destruct (decide (k = "message_id"%string)) as [->|H2];
    [now rewrite lookup_insert_eq|].
  rewrite lookup_insert_ne by congruence.
  destruct (decide (k = "status"%string)) as [->|H3];
    [now rewrite lookup_insert_eq|].
  now rewrite lookup_insert_ne by congruence.
Qed.


End Headers.



(** X12. Nothing clears the fields of an earlier outcome. When the send
    of a message raised a client error and a later send of the same message
    is accepted, the message carries the [status], [message_id] and
    [request_id] of the success together with the [reason], [body],
    [error_code] and [error_message] of the failure. *)
Theorem retry_keeps_error_fields (cfg : settings) (w : world) (message : msg_ref)
    (n1 n2 : nat) (s s2 : state) (err : gmap string pyval) (resp : response) :
  send_raw_email w (send_calls s) message = Raise (ClientError err) ->
  headers_of s2 message = headers_of (exec (send_one cfg w message n1) s) message ->
  send_raw_email w (send_calls s2) message = Ok resp ->
  let h := headers_of (exec (send_one cfg w message n2) s2) message in
  h !! "status"%string = Some (PyInt (HTTPStatusCode resp))
  /\ h !! "message_id"%string = Some (PyStr (MessageId resp))
  /\ h !! "request_id"%string = Some (PyStr (RequestId resp))
  /\ h !! "reason"%string = Some (getattr err "reason")
  /\ h !! "body"%string = Some (getattr err "body")
  /\ h !! "error_code"%string = Some (getattr err "error_code")
  /\ h !! "error_message"%string = Some (getattr err "error_message").
Proof.
  intros H1 Hh H2. cbv zeta. unfold exec at 1 2 3 4 5 6 7.
  rewrite (send_one_ok cfg w _ _ _ _ H2). cbn [snd].
  unfold exec in Hh. rewrite (send_one_client_error cfg w _ _ _ _ H1) in Hh.
  cbn [snd] in Hh. unfold failed_state in Hh.
  rewrite !sent_state_lookup, Hh, !record_error_lookup.
  repeat split; reflexivity.
Qed.

(** At concrete inputs: message 0 is rejected, then accepted; it ends up
    with status 200 and the error code of the rejection. *)
Lemma retry_keeps_error_fields_witness :
  let cfg := cfg_of true None in
  let s1 := exec (send_one cfg ticking_world 0%nat 0) connected_state in
  let h := headers_of (exec (send_one cfg ticking_world 0%nat 0) s1) 0%nat in
  h !! "status"%string = Some (PyInt 200)
  /\ h !! "message_id"%string = Some (PyStr "0100018a")
  /\ h !! "error_code"%string = Some (PyStr "MessageRejected")
  /\ h !! "reason"%string = Some PyNone.
Proof.
  cbv zeta.
  destruct (retry_keeps_error_fields (cfg_of true None) ticking_world 0%nat 0 0
              connected_state
              (exec (send_one (cfg_of true None) ticking_world 0%nat 0) connected_state)
              rejected accepted eq_refl eq_refl eq_refl)
    as (Hst & Hid & _ & Hre & _ & Hec & _).
  split; [exact Hst|]. split; [exact Hid|]. split; [exact Hec | exact Hre].
Defined.
